(** * arXiv daily digest: a shallow embedding of [main.py] and [data_model.py]

    The development follows the order of the source: the listing fetcher
    ([fetch_recent_arxiv]), the figure extractor ([extract_main_figure]), the
    digest assembler ([build_email]), the affiliation extractor
    ([extract_affiliations_from_pdf]), the summarizer ([summarize_from_pdf])
    and the run loop ([run]).

    Conventions of the embedding:
    - a Python [str] is a list of Unicode code points ([list N]);
      [bytes] is a list of bytes;
    - a Python [int] is a [Z];
    - code that can raise lives in the error monad [exc]; [try_except]
      is [try: ... except Exception: ...];
    - the libraries the script calls (the listing service, httpx, PyMuPDF,
      the generative model, the file system, the mail relay) are the fields
      of the class [Collaborators]; the iteration order of a [set] is the
      class [SetOrder]. *)

From Stdlib Require Import QArith.QArith_base.
From Stdlib Require Import Strings.String Strings.Ascii Strings.Byte DecimalString.
From stdpp Require Import gmap list numbers.

#[local] Open Scope Z_scope.

(** ** Exceptions and the error monad *)

(** The subclasses of Python's [Exception] that the script can meet. *)
Inductive exn : Type :=
  | ZeroDivisionError
  | IndexError
  | OverflowError
  | ValueError
  | ValidationError (missing_field : string)
  | UnexpectedEmptyPageError
  | LibraryError (code : N).

Inductive exc (A : Type) : Type :=
  | Return (a : A)
  | Raise (e : exn).
Arguments Return {A} a.
Arguments Raise {A} e.

#[global] Instance exc_ret : MRet exc := λ A a, Return a.
#[global] Instance exc_bind : MBind exc := λ A B f m,
  match m with
  | Return a => f a
  | Raise e => Raise e
  end.

(** [try: body   except Exception: handler]. *)
Definition try_except {A} (body : exc A) (handler : exn → exc A) : exc A :=
  match body with
  | Return a => Return a
  | Raise e => handler e
  end.

(** A [for] loop whose body can raise: the first exception leaves the loop. *)
Fixpoint for_each {S X} (body : S → X → exc S) (xs : list X) (s : S) : exc S :=
  match xs with
  | [] => Return s
  | x :: xs' => s' ← body s x; for_each body xs' s'
  end.

(** ** Strings and bytes *)

Abbreviation str := (list N).
Abbreviation bytes := (list Byte.byte).

(** Decoding of the UTF-8 source text of a literal into code points. *)
Fixpoint utf8_decode (bs : list N) : str :=
  match bs with
  | [] => []
  | b :: rest =>
    if (b <? 128)%N then b :: utf8_decode rest
    else if (b <? 224)%N then
      match rest with
      | c1 :: r => ((b - 192) * 64 + (c1 - 128))%N :: utf8_decode r
      | _ => []
      end
    else if (b <? 240)%N then
      match rest with
      | c1 :: c2 :: r =>
        ((b - 224) * 4096 + (c1 - 128) * 64 + (c2 - 128))%N :: utf8_decode r
      | _ => []
      end
    else
      match rest with
      | c1 :: c2 :: c3 :: r =>
        ((b - 240) * 262144 + (c1 - 128) * 4096 + (c2 - 128) * 64 + (c3 - 128))%N
          :: utf8_decode r
      | _ => []
      end
  end.

(** A string literal of the source. *)
Definition u (s : string) : str :=
  utf8_decode (Byte.to_N <$> list_byte_of_string s).

(** [sep.join(parts)]. *)
Fixpoint join (sep : str) (parts : list str) : str :=
  match parts with
  | [] => []
  | [p] => p
  | p :: ps => p ++ sep ++ join sep ps
  end.

(** [s.startswith(p)]. *)
Fixpoint startswith (p s : str) : bool :=
  match p, s with
  | [], _ => true
  | _ :: _, [] => false
  | a :: p', b :: s' => (a =? b)%N && startswith p' s'
  end.

(** [k in s] for strings. *)
Fixpoint contains (k s : str) : bool :=
  startswith k s ||
  match s with
  | [] => false
  | _ :: s' => contains k s'
  end.

(** [str(i)] for a non-negative integer. *)
Definition str_of_nat (i : nat) : str :=
  u (NilEmpty.string_of_uint (Nat.to_uint i)).

(** ** The data model ([data_model.py]) *)

Record PaperItem := {
  arxiv_id : str;
  title : str;
  summary : str;
  authors : list str;
  pdf_url : str;
  abs_url : str;
}.

Record PaperDigest := {
  paper : PaperItem;
  zh_summary : str;
  summary_en : str;
  main_img_bytes : option bytes;
  main_img_cid : option str;
}.

(** ** Character classes of [str]

    [str.strip()] and the regular-expression class [\s] use the same set of
    white-space code points; [\d] is the Unicode category Nd (Unicode 14). *)

Definition isspace (c : N) : bool :=
  ((9 <=? c) && (c <=? 13) || (28 <=? c) && (c <=? 32) ||
   (c =? 133) || (c =? 160) || (c =? 5760) ||
   (8192 <=? c) && (c <=? 8202) || (c =? 8232) || (c =? 8233) ||
   (c =? 8239) || (c =? 8287) || (c =? 12288))%N.

(** First code point and length of every run of decimal digits. *)
Definition decimal_digit_runs : list (N * N) :=
  [(48, 10); (1632, 10); (1776, 10); (1984, 10); (2406, 10); (2534, 10);
   (2662, 10); (2790, 10); (2918, 10); (3046, 10); (3174, 10); (3302, 10);
   (3430, 10); (3558, 10); (3664, 10); (3792, 10); (3872, 10); (4160, 10);
   (4240, 10); (6112, 10); (6160, 10); (6470, 10); (6608, 10); (6784, 10);
   (6800, 10); (6992, 10); (7088, 10); (7232, 10); (7248, 10); (42528, 10);
   (43216, 10); (43264, 10); (43472, 10); (43504, 10); (43600, 10);
   (44016, 10); (65296, 10); (66720, 10); (68912, 10); (69734, 10);
   (69872, 10); (69942, 10); (70096, 10); (70384, 10); (70736, 10);
   (70864, 10); (71248, 10); (71360, 10); (71472, 10); (71904, 10);
   (72016, 10); (72784, 10); (73040, 10); (73120, 10); (92768, 10);
   (92864, 10); (93008, 10); (120782, 50); (123200, 10); (123632, 10);
   (125264, 10); (130032, 10)]%N.

Definition isdecimal (c : N) : bool :=
  existsb (λ run, (fst run <=? c) && (c <? fst run + snd run))%N
          decimal_digit_runs.

(** [s.lower()], exact on every character whose lower-case form holds an
    ASCII letter: [A]-[Z], U+0130 (dotted capital I, which becomes [i]
    followed by U+0307) and U+212A (the Kelvin sign, which becomes [k]).
    Every other character lowers to characters outside ASCII and is kept as
    it is; a search for an ASCII keyword cannot tell the difference. *)
Definition lower_char (c : N) : str :=
  if ((65 <=? c) && (c <=? 90))%N then [(c + 32)%N]
  else if (c =? 304)%N then [105; 775]%N
  else if (c =? 8490)%N then [107]%N
  else [c].

Definition lower (s : str) : str := s ≫= lower_char.

Fixpoint lstrip (s : str) : str :=
  match s with
  | c :: s' => if isspace c then lstrip s' else s
  | [] => []
  end.

Definition rstrip (s : str) : str := reverse (lstrip (reverse s)).

(** [s.strip()]. *)
Definition strip (s : str) : str := rstrip (lstrip s).

(** [s.replace(old, new)] for a non-empty [old]: occurrences are replaced
    from left to right without overlap. [skip] counts the characters of the
    occurrence just replaced that are still to be passed over. *)
Fixpoint replace_from (old new s : str) (skip : nat) : str :=
  match s with
  | [] => []
  | c :: s' =>
    match skip with
    | S k => replace_from old new s' k
    | O =>
      if startswith old s then new ++ replace_from old new s' (List.length old - 1)
      else c :: replace_from old new s' O
    end
  end.

Definition replace (old new s : str) : str := replace_from old new s O.

(** [s.split(sep)] for a one-character separator. *)
Fixpoint split (sep : N) (s : str) : list str :=
  match s with
  | [] => [[]]
  | c :: s' =>
    if (c =? sep)%N then [] :: split sep s'
    else match split sep s' with
         | cur :: rest => (c :: cur) :: rest
         | [] => [[c]]
         end
  end.

(** ** Time ([datetime])

    An aware [datetime] in UTC is the number of microseconds since the epoch;
    a [date] is the number of days since the epoch. [datetime] only
    represents the years 1 to 9999 and [timedelta] at most 999999999 days
    either way; leaving these ranges raises [OverflowError]. *)

Definition datetime_min : Z := -62135596800000000.
Definition datetime_max : Z := 253402300799999999.
Definition microseconds_per_hour : Z := 3600000000.
Definition microseconds_per_day : Z := 86400000000.

(** [timedelta(hours=h)]. *)
Definition timedelta_hours (h : Z) : exc Z :=
  if (-999999999 <=? h `div` 24) && (h `div` 24 <=? 999999999)
  then Return (h * microseconds_per_hour)
  else Raise OverflowError.

(** [t - delta] on a [datetime]. *)
Definition datetime_sub (t delta : Z) : exc Z :=
  let r := t - delta in
  if (datetime_min <=? r) && (r <=? datetime_max) then Return r
  else Raise OverflowError.

(** [t.date()] of a UTC [datetime]. *)
Definition date (t : Z) : Z := t `div` microseconds_per_day.

(** ** What the libraries hand to the script *)

(** The listing service (package [arxiv]). *)
Module arxiv.
Record Author := { name : str; affiliation : option str }.

Record Result := {
  updated : option Z;
  published : Z;
  get_short_id : str;
  title : str;
  summary : str;
  authors : list Author;
  pdf_url : str;
  entry_id : str;
}.

(** What iterating [client.results(search)] does: it yields [delivered]
    and then either stops or raises. *)
Record Listing := {
  delivered : list Result;
  ending : exc ();
}.
End arxiv.

(** PyMuPDF (package [fitz]). *)
Module fitz.
Record Pixmap := {
  xref : N;
  width : Z;
  height : Z;
  alpha : Z;
  n : Z;
}.

(** A page: its plain text, and for every embedded image, in embedding
    order, what [fitz.Pixmap(doc, xref)] gives. *)
Record Page := {
  get_text : exc str;
  get_images : exc (list (exc Pixmap));
}.

Definition Document := list Page.
End fitz.

(** An assembled message: the headers, the two alternative bodies and the
    inline images (content identifier and PNG bytes). *)
Record Message := {
  msg_subject : str;
  msg_from : str;
  msg_to : str;
  msg_plain : str;
  msg_html : str;
  msg_images : list (str * bytes);
}.

(** The collaborators of the script: the clock, the listing service, the
    HTTP client (a request with a timeout that also passes
    [raise_for_status]), PyMuPDF, the generative model, the file system
    ([write_file name text] opens the file for writing and writes the text)
    and the mail relay. *)
Class Collaborators := {
  utc_now : Z;
  local_today : str;
  arxiv_results : str → arxiv.Listing;
  http_get : Z → str → exc bytes;
  fitz_open : bytes → exc fitz.Document;
  Pixmap_csRGB : fitz.Pixmap → exc fitz.Pixmap;
  Pixmap_csRGB_size : ∀ p q, Pixmap_csRGB p = Return q →
    fitz.width q = fitz.width p ∧ fitz.height q = fitz.height p;
  tobytes_png : fitz.Pixmap → exc bytes;
  generate_content : str → exc str;
  write_file : str → str → exc ();
  smtp_send : Message → exc ();
}.

(** Iterating over a [set] of strings visits the slots of its hash table,
    an order fixed by the hashes of the strings (seeded anew in every
    process) and not by the order of insertion. [set_iter] gives that order
    for the elements listed in insertion order; all the language promises is
    that every element is visited once. *)
Class SetOrder := {
  set_iter : list str → list str;
  set_iter_perm : ∀ l, set_iter l ≡ₚ l;
}.

(** The configuration read from the environment when the module loads. *)
Record Config := {
  CATEGORY : str;
  LOOKBACK_HOURS : Z;
  SMTP_USER : str;
  MAIL_TO_LIST : list str;
}.

(** ** Listing fetcher ([fetch_recent_arxiv]) *)

(** [result.updated or result.published]: a [datetime] is always true, so
    the fall-back is taken exactly when there is no update time. *)
Definition effective (r : arxiv.Result) : Z :=
  match arxiv.updated r with
  | Some t => t
  | None => arxiv.published r
  end.

(** The [PaperItem] built for a result. The call also passes the keyword
    [affiliations], which [PaperItem] does not declare; the model class
    drops it. *)
Definition to_item (r : arxiv.Result) : PaperItem := {|
  arxiv_id := arxiv.get_short_id r;
  title := strip (arxiv.title r);
  summary := strip (arxiv.summary r);
  authors := arxiv.name <$> arxiv.authors r;
  pdf_url := replace (u "http://") (u "https://") (arxiv.pdf_url r);
  abs_url := arxiv.entry_id r;
|}.

(** The body of the loop over the results, on the dictionary
    [papers_by_day] (a [defaultdict(list)] keyed by date). *)
Definition group_step (cutoff : Z) (papers_by_day : gmap Z (list PaperItem))
    (result : arxiv.Result) : gmap Z (list PaperItem) :=
  let updated := effective result in
  if updated <? cutoff then papers_by_day
  else
    let day := date updated in
    <[day := default [] (papers_by_day !! day) ++ [to_item result]]>
      papers_by_day.

(** [max(keys)]; Python raises [ValueError] on an empty sequence, which the
    caller excludes. *)
Definition max_day (keys : list Z) : exc Z :=
  match keys with
  | [] => Raise ValueError
  | k :: ks => Return (foldl Z.max k ks)
  end.

Definition latest_papers (papers_by_day : gmap Z (list PaperItem))
    : exc (list PaperItem) :=
  if decide (papers_by_day = ∅) then Return []
  else
    latest_day ← max_day (map_to_list papers_by_day).*1;
    Return (default [] (papers_by_day !! latest_day)).

Definition fetch_recent_arxiv `{Collaborators} (category : str)
    (lookback_hours : Z) : exc (list PaperItem) :=
  delta ← timedelta_hours lookback_hours;
  cutoff ← datetime_sub utc_now delta;
  let feed := arxiv_results (u "cat:" ++ category) in
  let papers_by_day := foldl (group_step cutoff) ∅ (arxiv.delivered feed) in
  _ ← try_except (arxiv.ending feed)
        (λ e, match e with
              | UnexpectedEmptyPageError => Return ()
              | _ => Raise e
              end);
  latest_papers papers_by_day.

(** ** Figure extractor ([extract_main_figure]) *)

(** [a / b] on integers. The quotient is kept exact: for the sizes of a
    pixmap (below [2^31]) the floating-point quotient compares with [6] as
    the exact one does. *)
Definition true_div (a b : Z) : exc Q :=
  match b with
  | 0 => Raise ZeroDivisionError
  | Z.pos p => Return (Qmake a p)
  | Z.neg p => Return (Qmake (- a) p)
  end.

(** [q > k] for an integer [k]. *)
Definition Qgtb (q : Q) (k : Z) : bool := negb (Qle_bool q (inject_Z k)).

(** [w / h > 6 or h / w > 6]; the second quotient is only computed when the
    first comparison is false. *)
Definition aspect_exceeds (w h : Z) : exc bool :=
  r1 ← true_div w h;
  if Qgtb r1 6 then Return true
  else r2 ← true_div h w; Return (Qgtb r2 6).

(** The state of the scan: [(best, best_area)]. *)
Definition scan_state : Type := option fitz.Pixmap * Z.

(** Lines 80 to 87: the filters and the comparison with the best so far. *)
Definition consider (st : scan_state) (pix : fitz.Pixmap) : exc scan_state :=
  let w := fitz.width pix in
  let h := fitz.height pix in
  let area := w * h in
  if Z.min w h <? 200 then Return st
  else
    reject ← aspect_exceeds w h;
    if (reject : bool) then Return st
    else if area >? st.2 then Return (Some pix, area)
    else Return st.

(** Lines 78 and 79: [if pix.alpha or pix.n > 4: pix = Pixmap(csRGB, pix)]. *)
Definition to_rgb `{Collaborators} (pix : fitz.Pixmap) : exc fitz.Pixmap :=
  if negb (fitz.alpha pix =? 0) || (fitz.n pix >? 4) then Pixmap_csRGB pix
  else Return pix.

Definition scan_image `{Collaborators} (st : scan_state)
    (img : exc fitz.Pixmap) : exc scan_state :=
  pix ← img;
  pix ← to_rgb pix;
  consider st pix.

Definition scan_page `{Collaborators} (st : scan_state) (page : fitz.Page)
    : exc scan_state :=
  imgs ← fitz.get_images page;
  for_each scan_image imgs st.

(** The body of the [try] block. A [Pixmap] has a positive length, so
    [if best] tests that a candidate was kept. *)
Definition extract_main_figure_body `{Collaborators} (pdf_bytes : bytes)
    : exc (option bytes) :=
  doc ← fitz_open pdf_bytes;
  st ← for_each scan_page doc (None, 0);
  match st.1 with
  | Some best => png ← tobytes_png best; Return (Some png)
  | None => Return None
  end.

Definition extract_main_figure `{Collaborators} (pdf_bytes : bytes)
    : exc (option bytes) :=
  try_except (extract_main_figure_body pdf_bytes) (λ _, Return None).

(** ** Digest assembler ([build_email]) *)

(** [html.escape(s)], with quotes escaped as well. *)
Definition escape_char (c : N) : str :=
  if (c =? 38)%N then u "&amp;"
  else if (c =? 60)%N then u "&lt;"
  else if (c =? 62)%N then u "&gt;"
  else if (c =? 34)%N then u "&quot;"
  else if (c =? 39)%N then u "&#x27;"
  else [c].

Definition html_escape (s : str) : str := s ≫= escape_char.

(** The double quote and the line break of the templates. *)
Definition dq : str := [34%N].
Definition nl : str := [10%N].

(** The block of the [i]-th digest. *)
Definition html_block (i : nat) (d : PaperDigest) : str :=
  let p := paper d in
  nl ++ u "        <h3>" ++ str_of_nat i ++ u ". " ++ html_escape (title p)
     ++ u "</h3>" ++
  nl ++ u "        <p><b>作者：</b>"
     ++ html_escape (join (u ", ") (authors p)) ++ u "<br/>" ++
  nl ++ u "        <a href=" ++ dq ++ abs_url p ++ dq ++ u ">摘要页</a> | <a href="
     ++ dq ++ pdf_url p ++ dq ++ u ">PDF</a></p>" ++
  nl ++ u "        <p style=" ++ dq ++ u "white-space: pre-line;" ++ dq ++ u ">"
     ++ html_escape (zh_summary d) ++ u "</p>" ++
  nl ++ u "        ".

(** [for i, d in enumerate(digests, 1)]: the blocks, numbered from [i]. *)
Fixpoint html_blocks (i : nat) (digests : list PaperDigest) : list str :=
  match digests with
  | [] => []
  | d :: ds => html_block i d :: html_blocks (S i) ds
  end.

(** [x or y] on strings. *)
Definition str_or (x y : str) : str :=
  match x with
  | [] => y
  | _ => x
  end.

Definition html_body (cfg : Config) (digests : list PaperDigest) : str :=
  nl ++ u "    <html><body>" ++
  nl ++ u "    <h2>arXiv " ++ CATEGORY cfg ++ u " 每日摘要</h2>" ++
  nl ++ u "    "
     ++ str_or (join [] (html_blocks 1 digests)) (u "<p>今日暂无新论文。</p>") ++
  nl ++ u "    <hr/><p style=" ++ dq ++ u "color:#888" ++ dq
     ++ u ">Gemini 自动生成 · 请核对原文。</p></body></html>" ++
  nl ++ u "    ".

(** The image attachments are never filled: the code that did so is
    commented out. *)
Definition build_email `{Collaborators} (cfg : Config)
    (digests : list PaperDigest) : Message := {|
  msg_subject :=
    u "[arXiv " ++ CATEGORY cfg ++ u "] 每日摘要（" ++ local_today ++ u "）";
  msg_from := SMTP_USER cfg;
  msg_to := join (u ", ") (MAIL_TO_LIST cfg);
  msg_plain := u "请使用 HTML 邮件查看。";
  msg_html := html_body cfg digests;
  msg_images := [];
|}.

(** ** Affiliation extractor ([extract_affiliations_from_pdf]) *)

(** [set.add] and the insertion of a key into a [dict], on the list of the
    elements in order of first insertion. *)
Definition add_once (s : list str) (x : str) : list str :=
  if decide (x ∈ s) then s else s ++ [x].

(** [dict.fromkeys(l)], listed: the distinct elements in first-seen order. *)
Definition dict_fromkeys (l : list str) : list str := foldl add_once [] l.

(** The characters of the class [[-–:]]. *)
Definition is_separator (c : N) : bool :=
  ((c =? 45) || (c =? 8211) || (c =? 58))%N.

Fixpoint dropwhile (f : N → bool) (s : str) : str :=
  match s with
  | c :: s' => if f c then dropwhile f s' else s
  | [] => []
  end.

(** The text left after a match of [^\d+\s*[-–:]?\s*] at the start of [s],
    if there is one. Every quantifier is greedy and nothing after the digits
    can fail, so the match is the longest one. *)
Definition match_marker (s : str) : option str :=
  match s with
  | c :: _ =>
    if isdecimal c then
      let after_digits := dropwhile isdecimal s in
      let after_space := dropwhile isspace after_digits in
      let after_sep :=
        match after_space with
        | c' :: rest => if is_separator c' then rest else after_space
        | [] => []
        end in
      Some (dropwhile isspace after_sep)
    else None
  | [] => None
  end.

(** [re.sub(r"^\d+\s*[-–:]?\s*", "", s)]: the pattern only matches at the
    start. *)
Definition strip_marker (s : str) : str := default s (match_marker s).

(** [re.sub(r"\s+", " ", s)]; [in_run] tells that the previous character
    was white space. *)
Fixpoint collapse_from (in_run : bool) (s : str) : str :=
  match s with
  | [] => []
  | c :: s' =>
    if isspace c then
      if in_run then collapse_from true s' else 32%N :: collapse_from true s'
    else c :: collapse_from false s'
  end.

Definition collapse_spaces (s : str) : str := collapse_from false s.

Definition keywords_numbered : list str :=
  [u "university"; u "institute"; u "college"; u "lab"; u "centre"; u "center"].

Definition keywords_fallback : list str :=
  [u "university"; u "institute"; u "college"; u "academy"; u "lab"].

(** [any(k in line.lower() for k in keywords)]. *)
Definition has_keyword (keywords : list str) (line : str) : bool :=
  existsb (λ k, contains k (lower line)) keywords.

(** [[l.strip() for l in text.split("\n") if l.strip()]]. *)
Definition text_lines (text : str) : list str :=
  strip <$> filter (λ l, strip l ≠ []) (split 10%N text).

(** The first loop: numbered lines that name an institution. *)
Definition collect_numbered (lines : list str) : list str :=
  foldl (λ affiliations line,
           if bool_decide (is_Some (match_marker line))
              && has_keyword keywords_numbered line
           then add_once affiliations line else affiliations)
        [] lines.

(** The second loop, run when the first one found nothing. *)
Definition collect_fallback (lines : list str) : list str :=
  foldl (λ affiliations line,
           if has_keyword keywords_fallback line
           then add_once affiliations line else affiliations)
        [] lines.

Definition collect (lines : list str) : list str :=
  match collect_numbered lines with
  | [] => collect_fallback lines
  | affiliations => affiliations
  end.

Definition clean (aff : str) : str :=
  collapse_spaces (strip (strip_marker aff)).

Definition extract_affiliations_body `{Collaborators} `{SetOrder}
    (pdf_bytes : bytes) : exc (list str) :=
  doc ← fitz_open pdf_bytes;
  page ← match doc with
         | page :: _ => Return page
         | [] => Raise IndexError
         end;
  text ← fitz.get_text page;
  let affiliations := collect (text_lines text) in
  let cleaned := clean <$> set_iter affiliations in
  Return (dict_fromkeys cleaned).

Definition extract_affiliations_from_pdf `{Collaborators} `{SetOrder}
    (pdf_bytes : bytes) : exc (list str) :=
  try_except (extract_affiliations_body pdf_bytes) (λ _, Return []).

(** ** Summarizer ([summarize_from_pdf]) *)

(** The text of every page, in page order. *)
Fixpoint page_texts (doc : fitz.Document) : exc (list str) :=
  match doc with
  | [] => Return []
  | page :: pages =>
    t ← fitz.get_text page;
    ts ← page_texts pages;
    Return (t :: ts)
  end.

Definition summary_prompt (paper : PaperItem) (aff_text full_text : str) : str :=
  nl ++ u "You are an expert academic summarizer." ++
  nl ++ u "Based on the following paper content, write a concise summary (1-2 paragraphs) in English." ++
  nl ++ u "The summary should start with: " ++ dq ++ aff_text ++ u " ..." ++ dq
     ++ u " describing what they did, and naturally include the motivation, method, and results." ++
  nl ++ u "Write in formal academic English." ++
  nl ++
  nl ++ u "Title: " ++ title paper ++
  nl ++ u "Authors: " ++ join (u ", ") (authors paper) ++
  nl ++ u "Affiliations: " ++ aff_text ++
  nl ++ u "Paper Content:" ++
  nl ++ take (Z.to_nat 20000) full_text ++
  nl.

Definition translation_prompt (summary_en : str) : str :=
  u "将以下英文研究总结翻译成流畅、正式的学术中文，并保留专业术语。保持开头格式不变：" ++ nl ++ nl
    ++ summary_en.

(** The PDF is downloaded to a temporary file that is removed on every way
    out; the file holds the bytes of the response. The English summary
    [summary_en] is a local variable: only the translation is returned. *)
Definition summarize_from_pdf `{Collaborators} `{SetOrder} (paper : PaperItem)
    : exc str :=
  pdf_bytes ← http_get 30 (pdf_url paper);
  affiliations ← extract_affiliations_from_pdf pdf_bytes;
  doc ← fitz_open pdf_bytes;
  text ← page_texts doc;
  let full_text := join nl text in
  let aff_text :=
    match affiliations with
    | [] => u "the research team"
    | _ => join (u ", ") affiliations
    end in
  response ← generate_content (summary_prompt paper aff_text full_text);
  let summary_en := strip response in
  zh_response ← generate_content (translation_prompt summary_en);
  let zh_summary := strip zh_response in
  Return zh_summary.

(** ** The run loop ([run]) *)

(** The keyword arguments of a call [PaperDigest(...)]: a field is [None]
    when the call does not pass that keyword. *)
Record PaperDigest_kwargs := {
  kw_paper : option PaperItem;
  kw_zh_summary : option str;
  kw_summary_en : option str;
  kw_main_img_bytes : option (option bytes);
  kw_main_img_cid : option (option str);
}.

(** A field declared without a default must be passed. *)
Definition required {A} (field : string) (arg : option A) : exc A :=
  match arg with
  | Some a => Return a
  | None => Raise (ValidationError field)
  end.

(** The constructor of the model class [PaperDigest]: none of its five
    fields has a default. *)
Definition PaperDigest_new (kw : PaperDigest_kwargs) : exc PaperDigest :=
  p ← required "paper" (kw_paper kw);
  zh ← required "zh_summary" (kw_zh_summary kw);
  en ← required "summary_en" (kw_summary_en kw);
  img ← required "main_img_bytes" (kw_main_img_bytes kw);
  cid ← required "main_img_cid" (kw_main_img_cid kw);
  Return {| paper := p; zh_summary := zh; summary_en := en;
            main_img_bytes := img; main_img_cid := cid |}.

(** Lines 251 to 258: the download and the figure extraction, with every
    exception turned into "no image". *)
Definition fetch_figure `{Collaborators} (p : PaperItem) : exc (option bytes) :=
  try_except (content ← http_get 20 (pdf_url p); extract_main_figure content)
             (λ _, Return None).

(** [if img]: neither [None] nor empty. *)
Definition truthy (img : option bytes) : bool :=
  match img with
  | Some (_ :: _) => true
  | _ => false
  end.

(** The keywords of the call at lines 262 to 267. *)
Definition digest_kwargs (p : PaperItem) (zh_summary : str)
    (img : option bytes) : PaperDigest_kwargs :=
  let cid := u "img-" ++ arxiv_id p in
  {| kw_paper := Some p;
     kw_zh_summary := Some zh_summary;
     kw_summary_en := None;
     kw_main_img_bytes := Some img;
     kw_main_img_cid := Some (if truthy img then Some cid else None) |}.

(** The body of the loop over the papers. *)
Definition process_paper `{Collaborators} `{SetOrder}
    (digests : list PaperDigest) (p : PaperItem) : exc (list PaperDigest) :=
  zh_summary ← summarize_from_pdf p;
  img ← fetch_figure p;
  d ← PaperDigest_new (digest_kwargs p zh_summary img);
  Return (digests ++ [d]).

(** Lines 246 to 268. *)
Definition run_loop `{Collaborators} `{SetOrder} (cfg : Config)
    : exc (list PaperDigest) :=
  papers ← fetch_recent_arxiv (CATEGORY cfg) (LOOKBACK_HOURS cfg);
  for_each process_paper papers [].

(** The whole run. Of the parts of the message only the one of type
    [text/html] is written out: its text, decoded again, goes to the preview
    file before the message is sent. *)
Definition run `{Collaborators} `{SetOrder} (cfg : Config) : exc Message :=
  digests ← run_loop cfg;
  let msg := build_email cfg digests in
  _ ← write_file (u "arxiv_daily.html") (msg_html msg);
  _ ← smtp_send msg;
  Return msg.

(** ** Specification vocabulary for the figure extractor *)

Definition area (pix : fitz.Pixmap) : Z := fitz.width pix * fitz.height pix.

(** The two filters: the smaller side is at least 200 pixels and neither
    side is more than six times the other. *)
Definition passes (pix : fitz.Pixmap) : Prop :=
  200 ≤ Z.min (fitz.width pix) (fitz.height pix) ∧
  fitz.width pix ≤ 6 * fitz.height pix ∧
  fitz.height pix ≤ 6 * fitz.width pix.

Definition passesb (pix : fitz.Pixmap) : bool :=
  (200 <=? Z.min (fitz.width pix) (fitz.height pix)) &&
  (fitz.width pix <=? 6 * fitz.height pix) &&
  (fitz.height pix <=? 6 * fitz.width pix).

(** One step of the scan without its control flow. *)
Definition select (st : scan_state) (pix : fitz.Pixmap) : scan_state :=
  if passesb pix && (area pix >? st.2) then (Some pix, area pix) else st.

(** The pixmaps the scan looks at, page after page and in embedding order:
    every image decoded and, where needed, converted to RGB. *)
Fixpoint decoded_page `{Collaborators} (imgs : list (exc fitz.Pixmap))
    : exc (list fitz.Pixmap) :=
  match imgs with
  | [] => Return []
  | img :: imgs' =>
    raw ← img;
    pix ← to_rgb raw;
    rest ← decoded_page imgs';
    Return (pix :: rest)
  end.

Fixpoint decoded_images `{Collaborators} (doc : fitz.Document)
    : exc (list fitz.Pixmap) :=
  match doc with
  | [] => Return []
  | page :: pages =>
    imgs ← fitz.get_images page;
    here ← decoded_page imgs;
    rest ← decoded_images pages;
    Return (here ++ rest)
  end.

(** [raw] is an embedded image of [doc] that the scan sees as [pix]. *)
Definition embedded_as `{Collaborators} (doc : fitz.Document)
    (raw pix : fitz.Pixmap) : Prop :=
  ∃ page imgs, page ∈ doc ∧ fitz.get_images page = Return imgs ∧
               Return raw ∈ imgs ∧ to_rgb raw = Return pix.

(** What the state of the scan says about the pixmaps seen so far. *)
Definition best_of (pixs : list fitz.Pixmap) (st : scan_state) : Prop :=
  match st.1 with
  | None => st.2 = 0 ∧ ∀ q, q ∈ pixs → ¬ passes q
  | Some best =>
    st.2 = area best ∧ passes best ∧
    ∃ pre post, pixs = pre ++ best :: post ∧
      (∀ q, q ∈ pre → passes q → area q < area best) ∧
      (∀ q, q ∈ post → passes q → area q ≤ area best)
  end.


(** ** Sample collaborators

    A stand-in for the libraries, used to run the definitions on concrete
    inputs: the conversion to RGB keeps the size of the pixmap and the PNG
    encoder writes a signature followed by the number of the image. *)

Definition rgb_of (p : fitz.Pixmap) : fitz.Pixmap :=
  {| fitz.xref := fitz.xref p; fitz.width := fitz.width p;
     fitz.height := fitz.height p; fitz.alpha := 0; fitz.n := 3 |}.

Definition png_of (p : fitz.Pixmap) : bytes :=
  [x89; x50; x4e; x47] ++ default [] ((λ b, [b]) <$> Byte.of_N (fitz.xref p)).

Definition mock (now : Z) (feed : str → arxiv.Listing)
    (get : Z → str → exc bytes) (open : bytes → exc fitz.Document)
    (gen : str → exc str) : Collaborators := {|
  utc_now := now;
  local_today := u "2024-01-02";
  arxiv_results := feed;
  http_get := get;
  fitz_open := open;
  Pixmap_csRGB := λ p, Return (rgb_of p);
  Pixmap_csRGB_size := λ p q (E : Return (rgb_of p) = Return q),
    match E in _ = r
          return match r with
                 | Return q' => fitz.width q' = fitz.width p ∧
                                fitz.height q' = fitz.height p
                 | Raise _ => True
                 end
    with eq_refl => conj eq_refl eq_refl end;
  tobytes_png := λ p, Return (png_of p);
  generate_content := gen;
  write_file := λ _ _, Return ();
  smtp_send := λ _, Return ();
|}.

Definition image (x : N) (w h : Z) (a n : Z) : exc fitz.Pixmap :=
  Return {| fitz.xref := x; fitz.width := w; fitz.height := h;
            fitz.alpha := a; fitz.n := n |}.

Definition no_feed : str → arxiv.Listing :=
  λ _, {| arxiv.delivered := []; arxiv.ending := Return () |}.

(** PyMuPDF on a fixed document, whatever the bytes. *)
Definition with_document (doc : fitz.Document) : Collaborators :=
  mock 0 no_feed (λ _ _, Return []) (λ _, Return doc) (λ _, Return []).

(** Two pages: a logo, a 300 by 400 figure with an alpha channel, a
    400 by 300 figure, a thin rule and a smaller figure. *)
Definition sample_document : fitz.Document :=
  [ {| fitz.get_text := Return (u "page one");
       fitz.get_images := Return [image 1 64 64 0 3; image 2 300 400 1 4] |};
    {| fitz.get_text := Return (u "page two");
       fitz.get_images :=
         Return [image 3 400 300 0 3; image 4 2000 200 0 1;
                 image 5 250 250 0 3] |} ].

(** The scenario of the two images 100 by 300 and 100 by 400. *)
Definition narrow_document : fitz.Document :=
  [ {| fitz.get_text := Return [];
       fitz.get_images := Return [image 1 100 300 0 3; image 2 100 400 0 3] |} ].

(** Two images that pass the filters, the second one larger. *)
Definition wide_document : fitz.Document :=
  [ {| fitz.get_text := Return [];
       fitz.get_images := Return [image 1 300 300 0 3; image 2 300 400 0 3] |} ].


Definition sample_collaborators : Collaborators := with_document sample_document.
Definition narrow_collaborators : Collaborators := with_document narrow_document.
Definition wide_collaborators : Collaborators := with_document wide_document.

(** PyMuPDF refusing the bytes as malformed, behind a download that works;
    and a download that fails. *)
Definition malformed_collaborators : Collaborators :=
  mock 0 no_feed (λ _ _, Return []) (λ _, Raise (LibraryError 1)) (λ _, Return []).

Definition offline_collaborators : Collaborators :=
  mock 0 no_feed (λ _ _, Raise (LibraryError 2)) (λ _, Return sample_document)
       (λ _, Return []).

(** Two iteration orders of a set: the order of insertion and its reverse. *)
Definition insertion_order : SetOrder :=
  {| set_iter := λ l, l; set_iter_perm := λ l, Permutation_refl l |}.

Definition reversed_order : SetOrder :=
  {| set_iter := reverse; set_iter_perm := reverse_Permutation |}.

Definition sample_paper : PaperItem := {|
  arxiv_id := u "2401.00001v1";
  title := u "Fuzzing <script> & friends";
  summary := u "An abstract.";
  authors := [u "A. Author"; u "B. O'Neil"];
  pdf_url := u "https://arxiv.org/pdf/2401.00001v1";
  abs_url := u "http://arxiv.org/abs/2401.00001v1";
|}.


(** ** Specification vocabulary for the listing fetcher *)

(** The results that pass the recency filter, and those of one day. *)
Definition survivors (cutoff : Z) (results : list arxiv.Result)
    : list arxiv.Result :=
  filter (λ r, cutoff ≤ effective r) results.

Definition on_day (day : Z) (results : list arxiv.Result) : list arxiv.Result :=
  filter (λ r, date (effective r) = day) results.

(** The value of a [defaultdict(list)] at a key: absent until something is
    appended. *)
Definition bucket {A} (l : list A) : option (list A) :=
  match l with
  | [] => None
  | _ => Some l
  end.

(** A listing of three results: one updated on day 19724, one on day 19723
    that was never updated, one from ten days earlier. *)
Definition result_at (id : string) (upd : option Z) (pub : Z) : arxiv.Result := {|
  arxiv.updated := upd;
  arxiv.published := pub;
  arxiv.get_short_id := u id;
  arxiv.title := u "  A title ";
  arxiv.summary := u "An abstract.";
  arxiv.authors := [ {| arxiv.name := u "A. Author"; arxiv.affiliation := None |} ];
  arxiv.pdf_url := u "http://arxiv.org/pdf/" ++ u id;
  arxiv.entry_id := u "http://arxiv.org/abs/" ++ u id;
|}.

Definition sample_now : Z := 19724 * microseconds_per_day + 43200000000.

Definition sample_results : list arxiv.Result :=
  [ result_at "2401.00003v1" (Some (19724 * microseconds_per_day + 3600000000))
              (19724 * microseconds_per_day);
    result_at "2401.00002v1" None (19723 * microseconds_per_day + 7200000000);
    result_at "2401.00004v2" (Some (19724 * microseconds_per_day + 1))
              (19700 * microseconds_per_day);
    result_at "2312.00001v1" None (19714 * microseconds_per_day) ].

Definition listing_collaborators (now : Z) (results : list arxiv.Result)
    (ending : exc ()) : Collaborators :=
  mock now (λ _, {| arxiv.delivered := results; arxiv.ending := ending |})
       (λ _ _, Return []) (λ _, Return sample_document) (λ _, Return []).


(** A result updated exactly 168 hours before [sample_now]. *)
Definition boundary_result : arxiv.Result :=
  result_at "2401.00009v1" (Some (sample_now - 168 * microseconds_per_hour))
            (19000 * microseconds_per_day).

Definition sample_config : Config := {|
  CATEGORY := u "cs.CR";
  LOOKBACK_HOURS := 168;
  SMTP_USER := u "digest@example.org";
  MAIL_TO_LIST := [u "reader@example.org"];
|}.

(** A digest whose title and abstract-page link both carry markup. *)
Definition markup_paper : PaperItem := {|
  arxiv_id := u "2401.00001v1";
  title := u "<script>alert(2)</script>";
  summary := u "An abstract.";
  authors := [u "A. Author"; u "B. O'Neil"];
  pdf_url := u "https://arxiv.org/pdf/2401.00001v1";
  abs_url := u "http://arxiv.org/abs/1" ++ dq ++ u "><script>alert(1)</script>";
|}.

Definition markup_digest : PaperDigest := {|
  paper := markup_paper;
  zh_summary := u "摘要 <b>";
  summary_en := u "A summary.";
  main_img_bytes := None;
  main_img_cid := None;
|}.

(** A first page with two numbered affiliation lines, the second one
    repeated with other spacing. *)
Definition affiliation_text : str :=
  u "A Paper" ++ nl ++ u "1 MIT Lab" ++ nl ++ u "2: Oxford  University" ++ nl
    ++ u "  2 - Oxford University " ++ nl ++ u "Abstract".

Definition affiliation_document : fitz.Document :=
  [ {| fitz.get_text := Return affiliation_text; fitz.get_images := Return [] |} ].

(** A run in which every collaborator answers: one recent result, a PDF
    that opens as [sample_document], a model that echoes a fixed text. *)
Definition answering_collaborators : Collaborators :=
  mock sample_now
       (λ _, {| arxiv.delivered := [boundary_result]; arxiv.ending := Return () |})
       (λ _ _, Return [x25; x50; x44; x46]) (λ _, Return sample_document)
       (λ _, Return (u " A summary. ")).


(** A character that neither opens or closes markup nor ends an attribute
    value. *)
Definition is_plain (c : N) : bool :=
  negb ((c =? 60) || (c =? 62) || (c =? 34) || (c =? 39))%N.


(** ** Configuration of the recipients (lines 20 and 21) *)

(** [[addr.strip() for addr in MAIL_TO.split(",") if addr.strip()]]. *)
Definition mail_to_list (MAIL_TO : str) : list str :=
  strip <$> filter (λ addr, strip addr ≠ []) (split 44%N MAIL_TO).

(** ** Specification vocabulary for strings *)

(** The string does not begin with white space. *)
Definition starts_clean (s : str) : Prop :=
  match s with
  | c :: _ => isspace c = false
  | [] => True
  end.

(** The string neither begins nor ends with white space. *)
Definition trimmed (s : str) : Prop :=
  starts_clean s ∧ starts_clean (reverse s).

(** The string is a run of white space. *)
Definition blank (s : str) : Prop := Forall (λ c, isspace c = true) s.

(** The number of times the character [c] occurs in [s]. *)
Definition occurrences (c : N) (s : str) : nat :=
  length (filter (λ x, x = c) s).

(** All white space in the string is single spaces between other
    characters. *)
Fixpoint single_spaced_from (after_space : bool) (s : str) : Prop :=
  match s with
  | [] => True
  | c :: s' =>
    if isspace c then c = 32%N ∧ after_space = false ∧ single_spaced_from true s'
    else single_spaced_from false s'
  end.


(** The recipients of the sample configuration, as the environment gives
    them. *)
Definition sample_mail_to : str := u " reader@example.org, ,second@example.org ,".


(** A document whose second image cannot be decoded. *)
Definition damaged_document : fitz.Document :=
  [ {| fitz.get_text := Return [];
       fitz.get_images :=
         Return [image 1 300 400 0 3; Raise (LibraryError 3)] |} ].

(** [sample_document] without the images that fail the filters. *)
Definition figures_document : fitz.Document :=
  [ {| fitz.get_text := Return [];
       fitz.get_images :=
         Return [image 2 300 400 0 3; image 3 400 300 0 3;
                 image 5 250 250 0 3] |} ].

(** PyMuPDF opening the empty byte string as one document and everything
    else as another. *)
Definition with_documents (doc1 doc2 : fitz.Document) : Collaborators :=
  mock 0 no_feed (λ _ _, Return [])
       (λ b, match b with [] => Return doc1 | _ => Return doc2 end)
       (λ _, Return []).


(** The two schemes of a link, as lists of code points. *)
Definition http_scheme : str := [104; 116; 116; 112; 58; 47; 47]%N.
Definition https_scheme : str := [104; 116; 116; 112; 115; 58; 47; 47]%N.


(** The digest of a paper whose links are plain. *)
Definition sample_digest : PaperDigest := {|
  paper := sample_paper;
  zh_summary := u "摘要 <b>";
  summary_en := u "A summary.";
  main_img_bytes := None;
  main_img_cid := None;
|}.


(** ** Specification vocabulary for the digest assembler *)

(** The page around the blocks. *)
Definition html_frame (cfg : Config) (inner : str) : str :=
  nl ++ u "    <html><body>" ++
  nl ++ u "    <h2>arXiv " ++ CATEGORY cfg ++ u " 每日摘要</h2>" ++
  nl ++ u "    " ++ inner ++
  nl ++ u "    <hr/><p style=" ++ dq ++ u "color:#888" ++ dq
     ++ u ">Gemini 自动生成 · 请核对原文。</p></body></html>" ++
  nl ++ u "    ".

(** Neither link of the digest holds a character of markup. *)
Definition plain_links (d : PaperDigest) : Prop :=
  forallb is_plain (abs_url (paper d)) = true ∧
  forallb is_plain (pdf_url (paper d)) = true.


(** A day on which the listing delivers nothing. *)
Definition quiet_collaborators : Collaborators :=
  mock sample_now no_feed (λ _ _, Return []) (λ _, Return sample_document)
       (λ _, Return []).


(** Counts the occurrences in the literal pieces of a template. *)
Ltac count_literals :=
  repeat match goal with
         | |- context [occurrences ?c (u ?s)] =>
           let v := eval vm_compute in (occurrences c (u s)) in
           replace (occurrences c (u s)) with v by (vm_compute; reflexivity)
         | |- context [occurrences ?c nl] =>
           replace (occurrences c nl) with 0%nat by (vm_compute; reflexivity)
         end.


(** The same collaborators with another PNG encoder, and with a file system
    that refuses every write. *)
Definition with_encoder (C : Collaborators)
    (encode : fitz.Pixmap → exc bytes) : Collaborators := {|
  utc_now := @utc_now C;
  local_today := @local_today C;
  arxiv_results := @arxiv_results C;
  http_get := @http_get C;
  fitz_open := @fitz_open C;
  Pixmap_csRGB := @Pixmap_csRGB C;
  Pixmap_csRGB_size := @Pixmap_csRGB_size C;
  tobytes_png := encode;
  generate_content := @generate_content C;
  write_file := @write_file C;
  smtp_send := @smtp_send C;
|}.

Definition read_only (C : Collaborators) : Collaborators := {|
  utc_now := @utc_now C;
  local_today := @local_today C;
  arxiv_results := @arxiv_results C;
  http_get := @http_get C;
  fitz_open := @fitz_open C;
  Pixmap_csRGB := @Pixmap_csRGB C;
  Pixmap_csRGB_size := @Pixmap_csRGB_size C;
  tobytes_png := @tobytes_png C;
  generate_content := @generate_content C;
  write_file := λ _ _, Raise (LibraryError 7);
  smtp_send := @smtp_send C;
|}.

(** A document with a CMYK image (four components, no alpha channel, so not
    converted to RGB) and a smaller RGB image, and an encoder that refuses
    pixmaps of four components, as the PNG format has no CMYK. *)
Definition cmyk_document : fitz.Document :=
  [ {| fitz.get_text := Return [];
       fitz.get_images := Return [image 1 300 400 0 4; image 2 250 250 0 3] |} ].

Definition cmyk_collaborators : Collaborators :=
  with_encoder (with_document cmyk_document)
    (λ p, if fitz.n p =? 4 then Raise (LibraryError 6) else Return (png_of p)).

(** * Properties *)

(** ** The error monad *)

Lemma bind_Return {A B} (m : exc A) (f : A → exc B) (b : B) :
  m ≫= f = Return b ↔ ∃ a, m = Return a ∧ f a = Return b.
Proof.
  destruct m as [a|e]; simpl; split.
  - intros Hf. by exists a.
  - by intros (a' & [= ->] & Hf).
  - discriminate.
  - by intros (a' & ? & _).
Qed.

Lemma try_except_total {A} (body : exc A) (a : A) :
  ∃ r, try_except body (λ _, Return a) = Return r.
Proof. destruct body; simpl; eauto. Qed.

Lemma try_except_Raise {A} (body : exc A) (a : A) (e : exn) :
  body = Raise e → try_except body (λ _, Return a) = Return a.
Proof. by intros ->. Qed.

Lemma for_each_app {S X} (body : S → X → exc S) (xs ys : list X) (s : S) :
  for_each body (xs ++ ys) s = for_each body xs s ≫= for_each body ys.
Proof.
  revert s. induction xs as [|x xs IH]; intros s; simpl; [done|].
  destruct (body s x); simpl; auto.
Qed.

(** ** Figure extractor *)

Lemma true_div_gt_6 (a b : Z) :
  0 < b → ∃ q, true_div a b = Return q ∧ Qgtb q 6 = bool_decide (6 * b < a).
Proof.
  intros Hb. destruct b as [|p|p]; try lia.
  eexists; split; [reflexivity|].
  unfold Qgtb, Qle_bool; simpl.
  case_bool_decide; [apply negb_true_iff, Z.leb_gt | apply negb_false_iff, Z.leb_le]; lia.
Qed.

Lemma aspect_exceeds_defined (w h : Z) :
  200 ≤ Z.min w h →
  aspect_exceeds w h = Return (bool_decide (6 * h < w ∨ 6 * w < h)).
Proof.
  intros Hmin. unfold aspect_exceeds.
  destruct (true_div_gt_6 w h) as (q1 & -> & E1); [lia|].
  destruct (true_div_gt_6 h w) as (q2 & E & E2); [lia|].
  simpl. rewrite E1. destruct (decide (6 * h < w)) as [H1|H1].
  - rewrite !bool_decide_eq_true_2; [done | by left | done].
  - rewrite (bool_decide_eq_false_2 _ H1), E; simpl. rewrite E2.
    f_equal. apply bool_decide_ext. lia.
Qed.

Lemma passesb_passes (pix : fitz.Pixmap) : passesb pix = true ↔ passes pix.
Proof. unfold passesb, passes. rewrite !andb_true_iff, !Z.leb_le. tauto. Qed.

Lemma consider_select (st : scan_state) (pix : fitz.Pixmap) :
  consider st pix = Return (select st pix).
Proof.
  unfold consider, select, passesb, area.
  destruct (Z.ltb_spec (Z.min (fitz.width pix) (fitz.height pix)) 200) as [Hlt|Hge].
  - by rewrite (proj2 (Z.leb_gt _ _) Hlt).
  - rewrite (proj2 (Z.leb_le _ _) Hge), aspect_exceeds_defined by done. simpl.
    case_bool_decide as Hr.
    + destruct Hr as [Hr|Hr].
      * by rewrite (proj2 (Z.leb_gt _ _) Hr).
      * rewrite (proj2 (Z.leb_gt (fitz.height pix) _) Hr).
        by rewrite andb_false_r.
    + rewrite (proj2 (Z.leb_le _ _)) by lia.
      rewrite (proj2 (Z.leb_le (fitz.height pix) _)) by lia. simpl.
      by destruct (_ >? _).
Qed.

(** The scan is the decoding of all images followed by a pure fold: since
    [consider] cannot raise, the only exceptions are those of the decoding,
    met in the same order. *)
Lemma scan_images_decoded `{Collaborators} imgs (st : scan_state) :
  for_each scan_image imgs st
  = decoded_page imgs ≫= λ pixs, Return (foldl select st pixs).
Proof.
  revert st. induction imgs as [|img imgs IH]; intros st; simpl; [done|].
  change (scan_image st img)
    with (img ≫= λ raw, to_rgb raw ≫= λ pix, consider st pix).
  destruct img as [raw|e]; simpl; [|done].
  destruct (to_rgb raw) as [pix|e]; simpl; [|done].
  rewrite consider_select; simpl. rewrite IH.
  by destruct (decoded_page imgs).
Qed.

Lemma scan_pages_decoded `{Collaborators} doc (st : scan_state) :
  for_each scan_page doc st
  = decoded_images doc ≫= λ pixs, Return (foldl select st pixs).
Proof.
  revert st. induction doc as [|page doc IH]; intros st; simpl; [done|].
  change (scan_page st page)
    with (fitz.get_images page ≫= λ imgs, for_each scan_image imgs st).
  destruct (fitz.get_images page) as [imgs|e]; simpl; [|done].
  rewrite scan_images_decoded.
  destruct (decoded_page imgs) as [here|e]; simpl; [|done].
  rewrite IH. destruct (decoded_images doc) as [rest|e]; simpl; [|done].
  by rewrite foldl_app.
Qed.

Lemma passes_area (pix : fitz.Pixmap) : passes pix → 40000 ≤ area pix.
Proof. unfold passes, area. intros (Hmin & _ & _). nia. Qed.

Lemma foldl_select_best (pixs : list fitz.Pixmap) :
  best_of pixs (foldl select (None, 0) pixs).
Proof.
  induction pixs as [|x l IH] using rev_ind.
  - split; [done|]. intros q Hq. by apply elem_of_nil in Hq.
  - rewrite foldl_app; simpl.
    destruct (foldl select (None, 0) l) as [b a].
    unfold best_of, select in *; simpl in *.
    destruct (passesb x) eqn:Hp; simpl.
    + apply passesb_passes in Hp.
      destruct (Z.gtb_spec (area x) a) as [Hgt|Hle].
      * split; [done|]. split; [done|]. exists l, []. split; [done|].
        split; [|intros q Hq; by apply elem_of_nil in Hq].
        intros q Hq Hpq. destruct b as [best|]; simpl in IH.
        -- destruct IH as (-> & _ & pre & post & -> & Hpre & Hpost).
           apply elem_of_app in Hq as [Hq|Hq]; [specialize (Hpre q Hq Hpq); lia|].
           apply elem_of_cons in Hq as [->|Hq]; [lia|].
           specialize (Hpost q Hq Hpq); lia.
        -- destruct IH as [_ Hnone]. by destruct (Hnone q Hq).
      * destruct b as [best|]; simpl in *.
        -- destruct IH as (-> & Hbest & pre & post & -> & Hpre & Hpost).
           split; [done|]. split; [done|]. exists pre, (post ++ [x]).
           split; [by rewrite <- app_assoc|]. split; [done|].
           intros q Hq Hpq. apply elem_of_app in Hq as [Hq|Hq]; [by apply Hpost|].
           apply list_elem_of_singleton in Hq as ->. lia.
        -- destruct IH as [-> _]. apply passes_area in Hp. lia.
    + assert (¬ passes x) as Hnp.
      { intros Hx. apply passesb_passes in Hx. congruence. }
      destruct b as [best|]; simpl in *.
      * destruct IH as (-> & Hbest & pre & post & -> & Hpre & Hpost).
        split; [done|]. split; [done|]. exists pre, (post ++ [x]).
        split; [by rewrite <- app_assoc|]. split; [done|].
        intros q Hq Hpq. apply elem_of_app in Hq as [Hq|Hq]; [by apply Hpost|].
        by apply list_elem_of_singleton in Hq as ->.
      * destruct IH as [-> Hnone]. split; [done|].
        intros q Hq. apply elem_of_app in Hq as [Hq|Hq]; [by apply Hnone|].
        by apply list_elem_of_singleton in Hq as ->.
Qed.

Example sample_figure :
  @extract_main_figure (with_document sample_document) []
  = Return (Some [x89; x50; x4e; x47; x02]).
Proof. reflexivity. Qed.

Lemma to_rgb_size `{Collaborators} (raw pix : fitz.Pixmap) :
  to_rgb raw = Return pix →
  fitz.width pix = fitz.width raw ∧ fitz.height pix = fitz.height raw.
Proof.
  unfold to_rgb. destruct (_ || _).
  - apply Pixmap_csRGB_size.
  - by intros [= ->].
Qed.

Lemma decoded_page_embedded `{Collaborators} imgs pixs pix :
  decoded_page imgs = Return pixs → pix ∈ pixs →
  ∃ raw, Return raw ∈ imgs ∧ to_rgb raw = Return pix.
Proof.
  revert pixs. induction imgs as [|img imgs IH]; intros pixs; simpl.
  - intros [= <-] Hin. by apply elem_of_nil in Hin.
  - intros (raw & -> & (p & Hp & (rest & Hrest & [= <-])%bind_Return)%bind_Return)%bind_Return.
    intros [->|Hin]%elem_of_cons.
    + exists raw. split; [left|done].
    + destruct (IH rest Hrest Hin) as (raw' & ? & ?).
      exists raw'. split; [by right|done].
Qed.

Lemma decoded_images_embedded `{Collaborators} doc pixs pix :
  decoded_images doc = Return pixs → pix ∈ pixs →
  ∃ raw, embedded_as doc raw pix.
Proof.
  revert pixs. induction doc as [|page doc IH]; intros pixs; simpl.
  - intros [= <-] Hin. by apply elem_of_nil in Hin.
  - intros (imgs & Himgs & (here & Hhere & (rest & Hrest & [= <-])%bind_Return)%bind_Return)%bind_Return.
    intros [Hin|Hin]%elem_of_app.
    + destruct (decoded_page_embedded _ _ _ Hhere Hin) as (raw & ? & ?).
      exists raw, page, imgs. split; [left|done].
    + destruct (IH rest Hrest Hin) as (raw & page' & imgs' & ? & ? & ? & ?).
      exists raw, page', imgs'. split; [by right|done].
Qed.

(** What the extractor returns once the document is open and every image
    is decoded. *)
Lemma extract_main_figure_decoded `{Collaborators} pdf_bytes doc pixs :
  fitz_open pdf_bytes = Return doc →
  decoded_images doc = Return pixs →
  extract_main_figure pdf_bytes =
    match (foldl select (None, 0) pixs).1 with
    | Some best =>
      try_except (png ← tobytes_png best; Return (Some png)) (λ _, Return None)
    | None => Return None
    end.
Proof.
  intros Hopen Hdec. unfold extract_main_figure, extract_main_figure_body.
  rewrite Hopen; simpl. rewrite scan_pages_decoded, Hdec; simpl.
  by destruct (foldl select (None, 0) pixs).1.
Qed.

(** C3, as the code has it. Whenever the extractor returns bytes, they are
    the PNG encoding of an embedded image that passes both filters (smaller
    side at least 200, neither side more than six times the other), whose
    area is strictly larger than that of every passing image before it and
    at least that of every passing image after it, in page order and then
    embedding order. When every image decodes: if no image passes the
    filters the extractor returns nothing; if some image passes, it returns
    the encoding of that first largest one when the encoding succeeds and
    nothing when the encoding raises. It also returns nothing when the
    document cannot be opened or some image cannot be decoded or
    converted. *)
Theorem extract_main_figure_largest `{Collaborators} (pdf_bytes : bytes) :
  (∀ png, extract_main_figure pdf_bytes = Return (Some png) →
     ∃ doc pre best post raw,
       fitz_open pdf_bytes = Return doc ∧
       decoded_images doc = Return (pre ++ best :: post) ∧
       embedded_as doc raw best ∧
       fitz.width raw = fitz.width best ∧ fitz.height raw = fitz.height best ∧
       tobytes_png best = Return png ∧
       passes best ∧
       (∀ q, q ∈ pre → passes q → area q < area best) ∧
       (∀ q, q ∈ post → passes q → area q ≤ area best)) ∧
  (∀ doc pixs,
     fitz_open pdf_bytes = Return doc → decoded_images doc = Return pixs →
     (∀ q, q ∈ pixs → ¬ passes q) →
     extract_main_figure pdf_bytes = Return None) ∧
  (∀ doc pixs q,
     fitz_open pdf_bytes = Return doc → decoded_images doc = Return pixs →
     q ∈ pixs → passes q →
     ∃ pre best post,
       pixs = pre ++ best :: post ∧ passes best ∧
       (∀ q, q ∈ pre → passes q → area q < area best) ∧
       (∀ q, q ∈ post → passes q → area q ≤ area best) ∧
       (∀ png, tobytes_png best = Return png →
               extract_main_figure pdf_bytes = Return (Some png)) ∧
       (∀ e, tobytes_png best = Raise e →
             extract_main_figure pdf_bytes = Return None)) ∧
  (∀ e, fitz_open pdf_bytes = Raise e →
        extract_main_figure pdf_bytes = Return None) ∧
  (∀ doc e, fitz_open pdf_bytes = Return doc → decoded_images doc = Raise e →
            extract_main_figure pdf_bytes = Return None).
Proof.
  split; [|split; [|split; [|split]]].
  - intros png Hres.
    destruct (fitz_open pdf_bytes) as [doc|e] eqn:Hopen;
      [|by unfold extract_main_figure, extract_main_figure_body in Hres;
           rewrite Hopen in Hres].
    destruct (decoded_images doc) as [pixs|e] eqn:Hdec;
      [|by unfold extract_main_figure, extract_main_figure_body in Hres;
           rewrite Hopen in Hres; simpl in Hres;
           rewrite scan_pages_decoded, Hdec in Hres].
    rewrite (extract_main_figure_decoded _ _ _ Hopen Hdec) in Hres.
    pose proof (foldl_select_best pixs) as Hbest. unfold best_of in Hbest.
    destruct (foldl select (None, 0) pixs).1 as [best|]; [|done].
    destruct Hbest as (_ & Hpass & pre & post & -> & Hpre & Hpost).
    destruct (decoded_images_embedded doc _ best Hdec) as [raw Hraw].
    { apply elem_of_app. right. left. }
    assert (to_rgb raw = Return best) as Hrgb by (by destruct Hraw as (?&?&?&?&?&?)).
    apply to_rgb_size in Hrgb as [Hw Hh].
    destruct (tobytes_png best) as [png'|e] eqn:Hpng; simpl in Hres; [|done].
    injection Hres as ->.
    by exists doc, pre, best, post, raw.
  - intros doc pixs Hopen Hdec Hnone.
    rewrite (extract_main_figure_decoded _ _ _ Hopen Hdec).
    pose proof (foldl_select_best pixs) as Hbest. unfold best_of in Hbest.
    destruct (foldl select (None, 0) pixs).1 as [best|]; [|done].
    destruct Hbest as (_ & Hpass & pre & post & -> & _).
    destruct (Hnone best); [|done]. apply elem_of_app. right. left.
  - intros doc pixs q Hopen Hdec Hq Hpq.
    rewrite (extract_main_figure_decoded _ _ _ Hopen Hdec).
    pose proof (foldl_select_best pixs) as Hbest. unfold best_of in Hbest.
    destruct (foldl select (None, 0) pixs).1 as [best|].
    + destruct Hbest as (_ & Hpass & pre & post & -> & Hpre & Hpost).
      exists pre, best, post. repeat (split; [done|]).
      split; [by intros png ->|by intros e ->].
    + destruct Hbest as [_ Hnone]. by destruct (Hnone q Hq).
  - intros e Hopen. unfold extract_main_figure, extract_main_figure_body.
    by rewrite Hopen.
  - intros doc e Hopen Hdec.
    unfold extract_main_figure, extract_main_figure_body.
    rewrite Hopen; simpl. by rewrite scan_pages_decoded, Hdec.
Qed.

Lemma extract_main_figure_largest_witness :
  (∃ doc pre best post raw,
     @fitz_open sample_collaborators [] = Return doc ∧
     @decoded_images sample_collaborators doc = Return (pre ++ best :: post) ∧
     @embedded_as sample_collaborators doc raw best ∧
     fitz.width raw = fitz.width best ∧ fitz.height raw = fitz.height best ∧
     @tobytes_png sample_collaborators best
       = Return [x89; x50; x4e; x47; x02] ∧
     passes best ∧
     (∀ q, q ∈ pre → passes q → area q < area best) ∧
     (∀ q, q ∈ post → passes q → area q ≤ area best)) ∧
  @extract_main_figure narrow_collaborators [] = Return None.
Proof.
  split.
  - exact (proj1 (@extract_main_figure_largest sample_collaborators [])
                 _ eq_refl).
  - refine (proj1 (proj2 (@extract_main_figure_largest narrow_collaborators []))
                  narrow_document _ eq_refl eq_refl _).
    intros q Hq (Hmin & _).
    apply elem_of_cons in Hq as [->|Hq]; [simpl in Hmin; lia|].
    apply list_elem_of_singleton in Hq as ->. simpl in Hmin; lia.
Defined.

(** C3, as the specification words it, fails. A document holds a CMYK
    image of 300 by 400 and an RGB image of 250 by 250; both decode and both
    pass the filters, yet the extractor returns nothing, because the PNG
    encoding of the larger one raises and the exception is swallowed. The
    same happens when an image after a passing one cannot be decoded. *)
Lemma passing_figure_lost :
  (@decoded_images cmyk_collaborators cmyk_document
     = Return [ {| fitz.xref := 1; fitz.width := 300; fitz.height := 400;
                   fitz.alpha := 0; fitz.n := 4 |};
                {| fitz.xref := 2; fitz.width := 250; fitz.height := 250;
                   fitz.alpha := 0; fitz.n := 3 |} ] ∧
   passes {| fitz.xref := 1; fitz.width := 300; fitz.height := 400;
             fitz.alpha := 0; fitz.n := 4 |} ∧
   passes {| fitz.xref := 2; fitz.width := 250; fitz.height := 250;
             fitz.alpha := 0; fitz.n := 3 |} ∧
   @extract_main_figure cmyk_collaborators [] = Return None) ∧
  (passes {| fitz.xref := 1; fitz.width := 300; fitz.height := 400;
             fitz.alpha := 0; fitz.n := 3 |} ∧
   @extract_main_figure (with_document damaged_document) [] = Return None).
Proof.
  split.
  - split; [reflexivity|].
    split; [unfold passes; simpl; lia|].
    split; [unfold passes; simpl; lia|]. reflexivity.
  - split; [unfold passes; simpl; lia|]. reflexivity.
Qed.

(** X16. Two images. When a document holds two images, both decode and
    both pass the filters, the extractor returns the encoding of the one with
    the larger area (the first one when the areas are equal), provided that
    encoding succeeds. Images 100 pixels wide, such as 100 by 300 and 100 by
    400, do not pass the filters, and a document that holds only two such
    images yields no figure. *)
Theorem two_images_larger_selected `{Collaborators} pdf_bytes doc p1 p2 :
  fitz_open pdf_bytes = Return doc →
  decoded_images doc = Return [p1; p2] →
  (passes p1 → passes p2 →
   ∀ png, tobytes_png (if area p2 >? area p1 then p2 else p1) = Return png →
          extract_main_figure pdf_bytes = Return (Some png)) ∧
  (fitz.width p1 = 100 → fitz.width p2 = 100 →
   ¬ passes p1 ∧ ¬ passes p2 ∧ extract_main_figure pdf_bytes = Return None).
Proof.
  intros Hopen Hdec. rewrite (extract_main_figure_decoded _ _ _ Hopen Hdec).
  simpl. split.
  - intros H1 H2 png Hpng. unfold select at 2; simpl.
    rewrite (proj2 (passesb_passes p1) H1); simpl.
    rewrite (proj2 (Z.gtb_gt _ _)) by (apply passes_area in H1; lia).
    unfold select; simpl. rewrite (proj2 (passesb_passes p2) H2); simpl.
    destruct (area p2 >? area p1); simpl; by rewrite Hpng.
  - intros Hw1 Hw2.
    assert (∀ q, fitz.width q = 100 → passesb q = false) as Hrej.
    { intros q Hq. unfold passesb. rewrite Hq.
      rewrite (proj2 (Z.leb_gt _ _)); [done | lia]. }
    split; [by intros (Hmin & _); lia|]. split; [by intros (Hmin & _); lia|].
    unfold select; simpl. by rewrite !Hrej.
Qed.

Lemma two_images_larger_selected_witness :
  @extract_main_figure wide_collaborators []
    = Return (Some [x89; x50; x4e; x47; x02]) ∧
  @extract_main_figure narrow_collaborators [] = Return None.
Proof.
  split.
  - refine (proj1 (@two_images_larger_selected wide_collaborators []
              wide_document
              {| fitz.xref := 1; fitz.width := 300; fitz.height := 300;
                 fitz.alpha := 0; fitz.n := 3 |}
              {| fitz.xref := 2; fitz.width := 300; fitz.height := 400;
                 fitz.alpha := 0; fitz.n := 3 |}
              eq_refl eq_refl) _ _ _ eq_refl);
      unfold passes; simpl; lia.
  - exact (proj2 (proj2 (proj2 (@two_images_larger_selected
              narrow_collaborators [] narrow_document _ _ eq_refl eq_refl)
              eq_refl eq_refl))).
Defined.

(** On a document whose two images measure 100 by 300 and 100 by 400,
    neither image passes the filters and the extractor returns nothing. *)
Lemma narrow_images_not_selected :
  @decoded_images narrow_collaborators narrow_document
    = Return [ {| fitz.xref := 1; fitz.width := 100; fitz.height := 300;
                  fitz.alpha := 0; fitz.n := 3 |};
               {| fitz.xref := 2; fitz.width := 100; fitz.height := 400;
                  fitz.alpha := 0; fitz.n := 3 |} ] ∧
  ¬ passes {| fitz.xref := 1; fitz.width := 100; fitz.height := 300;
              fitz.alpha := 0; fitz.n := 3 |} ∧
  ¬ passes {| fitz.xref := 2; fitz.width := 100; fitz.height := 400;
              fitz.alpha := 0; fitz.n := 3 |} ∧
  @extract_main_figure narrow_collaborators [] = Return None ∧
  @extract_main_figure narrow_collaborators []
    ≠ Return (Some (png_of {| fitz.xref := 2; fitz.width := 100;
                              fitz.height := 400; fitz.alpha := 0;
                              fitz.n := 3 |})).
Proof.
  split; [reflexivity|].
  split; [intros (Hmin & _); simpl in Hmin; lia|].
  split; [intros (Hmin & _); simpl in Hmin; lia|].
  split; [reflexivity | discriminate].
Qed.

(** C10. The rejection of small images comes before the two divisions: an
    image whose smaller side is below 200, and so every image of width or
    height zero, leaves the state as it is although the aspect test alone
    would raise [ZeroDivisionError] on it; from 200 on both divisors are
    non-zero and the test has a value. The filtering step never raises. *)
Theorem aspect_division_guarded :
  (∀ st pix, Z.min (fitz.width pix) (fitz.height pix) < 200 →
             consider st pix = Return st) ∧
  (∀ w h, w = 0 ∨ h = 0 → aspect_exceeds w h = Raise ZeroDivisionError) ∧
  (∀ w h, 200 ≤ Z.min w h →
          w ≠ 0 ∧ h ≠ 0 ∧ ∃ b, aspect_exceeds w h = Return b) ∧
  (∀ st pix, ∃ st', consider st pix = Return st').
Proof.
  split; [|split; [|split]].
  - intros st pix Hlt. unfold consider.
    by rewrite (proj2 (Z.ltb_lt _ _) Hlt).
  - intros w h [-> | ->]; unfold aspect_exceeds; [|done].
    destruct h; done.
  - intros w h Hmin. split; [lia|]. split; [lia|].
    rewrite aspect_exceeds_defined by done. eauto.
  - intros st pix. rewrite consider_select. eauto.
Qed.

Lemma aspect_division_guarded_witness :
  consider (None, 0) {| fitz.xref := 7; fitz.width := 0; fitz.height := 0;
                        fitz.alpha := 0; fitz.n := 3 |} = Return (None, 0) ∧
  aspect_exceeds 0 0 = Raise ZeroDivisionError ∧
  (640 ≠ 0 ∧ 480 ≠ 0 ∧ ∃ b, aspect_exceeds 640 480 = Return b).
Proof.
  split; [|split].
  - apply (proj1 aspect_division_guarded). simpl. lia.
  - apply (proj1 (proj2 aspect_division_guarded)). by left.
  - apply (proj1 (proj2 (proj2 aspect_division_guarded))). lia.
Defined.

(** ** Failures of the best-effort steps *)

(** C9. Neither extractor lets an exception out. Whatever raises inside
    the figure extractor, a refusal of malformed bytes included, the result
    is "no figure"; a failed download in the run loop gives "no figure" as
    well; whatever raises inside the affiliation extractor, the result is the
    empty list. *)
Theorem extraction_failures_contained `{Collaborators} `{SetOrder} :
  (∀ pdf_bytes, ∃ r, extract_main_figure pdf_bytes = Return r) ∧
  (∀ pdf_bytes e, extract_main_figure_body pdf_bytes = Raise e →
                  extract_main_figure pdf_bytes = Return None) ∧
  (∀ pdf_bytes e, fitz_open pdf_bytes = Raise e →
                  extract_main_figure pdf_bytes = Return None ∧
                  extract_affiliations_from_pdf pdf_bytes = Return []) ∧
  (∀ p, ∃ img, fetch_figure p = Return img) ∧
  (∀ p e, http_get 20 (pdf_url p) = Raise e → fetch_figure p = Return None) ∧
  (∀ pdf_bytes, ∃ l, extract_affiliations_from_pdf pdf_bytes = Return l) ∧
  (∀ pdf_bytes e, extract_affiliations_body pdf_bytes = Raise e →
                  extract_affiliations_from_pdf pdf_bytes = Return []).
Proof.
  split; [|split; [|split; [|split; [|split; [|split]]]]].
  - intros pdf_bytes. apply try_except_total.
  - intros pdf_bytes e. apply try_except_Raise.
  - intros pdf_bytes e Hopen. split.
    + unfold extract_main_figure, extract_main_figure_body. by rewrite Hopen.
    + unfold extract_affiliations_from_pdf, extract_affiliations_body.
      by rewrite Hopen.
  - intros p. apply try_except_total.
  - intros p e He. unfold fetch_figure. by rewrite He.
  - intros pdf_bytes. apply try_except_total.
  - intros pdf_bytes e. apply try_except_Raise.
Qed.

Lemma extraction_failures_contained_witness :
  (@extract_main_figure malformed_collaborators [x25; x50; x44; x46]
     = Return None ∧
   @extract_affiliations_from_pdf malformed_collaborators insertion_order
     [x25; x50; x44; x46] = Return []) ∧
  @fetch_figure offline_collaborators sample_paper = Return None.
Proof.
  split.
  - exact (proj1 (proj2 (proj2 (@extraction_failures_contained
             malformed_collaborators insertion_order)))
             [x25; x50; x44; x46] (LibraryError 1) eq_refl).
  - exact (proj1 (proj2 (proj2 (proj2 (proj2 (@extraction_failures_contained
             offline_collaborators insertion_order)))))
             sample_paper (LibraryError 2) eq_refl).
Defined.

(** ** Listing fetcher *)

Example fetch_sample :
  @fetch_recent_arxiv
     (listing_collaborators sample_now sample_results (Raise UnexpectedEmptyPageError))
     (u "cs.CR") 168
  = Return [to_item (result_at "2401.00003v1" None 0);
            to_item (result_at "2401.00004v2" None 0)].
Proof. vm_compute. reflexivity. Qed.

Lemma bucket_snoc {A} (l : list A) (x : A) : bucket (l ++ [x]) = Some (l ++ [x]).
Proof. by destruct l. Qed.

Lemma default_bucket {A} (l : list A) : default [] (bucket l) = l.
Proof. by destruct l. Qed.

Lemma bucket_is_Some {A} (l : list A) : is_Some (bucket l) ↔ l ≠ [].
Proof.
  destruct l; simpl; split; done.
Qed.

(** The dictionary after the loop: under every day, the items of the
    survivors of that day, in the order of delivery. *)
Lemma papers_by_day_lookup (cutoff : Z) (results : list arxiv.Result) (d : Z) :
  foldl (group_step cutoff) ∅ results !! d
  = bucket (to_item <$> on_day d (survivors cutoff results)).
Proof.
  induction results as [|r l IH] using rev_ind; [done|].
  rewrite foldl_app; simpl. unfold survivors, on_day in *.
  rewrite list.filter_app. unfold group_step at 1.
  destruct (Z.ltb_spec (effective r) cutoff) as [Hold|Hnew].
  - rewrite filter_cons_False, filter_nil, app_nil_r by lia. apply IH.
  - rewrite (filter_cons_True _ r) by done. rewrite filter_nil, list.filter_app.
    destruct (decide (date (effective r) = d)) as [<-|Hd].
    + rewrite lookup_insert_eq, IH, default_bucket.
      rewrite (filter_cons_True _ r) by done.
      by rewrite filter_nil, fmap_snoc, bucket_snoc.
    + rewrite lookup_insert_ne by done.
      rewrite filter_cons_False, filter_nil, app_nil_r by done. apply IH.
Qed.

Lemma foldl_max_spec (ks : list Z) (k : Z) :
  (foldl Z.max k ks = k ∨ foldl Z.max k ks ∈ ks) ∧
  k ≤ foldl Z.max k ks ∧ ∀ x, x ∈ ks → x ≤ foldl Z.max k ks.
Proof.
  revert k. induction ks as [|y ks IH]; intros k; simpl.
  - split; [by left|]. split; [lia|]. intros x Hx. by apply elem_of_nil in Hx.
  - destruct (IH (k `max` y)) as (Hin & Hle & Hall). split; [|split].
    + destruct Hin as [Heq|Hin]; [|right; by right].
      destruct (Z.max_spec k y) as [[_ Hm]|[_ Hm]]; rewrite Hm in Heq |- *.
      * right. rewrite Heq. left.
      * by left.
    + lia.
    + intros x [->|Hx]%elem_of_cons; [lia | by apply Hall].
Qed.

Lemma max_day_spec (keys : list Z) :
  keys ≠ [] →
  ∃ d, max_day keys = Return d ∧ d ∈ keys ∧ ∀ k, k ∈ keys → k ≤ d.
Proof.
  destruct keys as [|k ks]; [done|]. intros _. simpl.
  destruct (foldl_max_spec ks k) as (Hin & Hle & Hall).
  eexists. split; [done|]. split.
  - destruct Hin as [->|Hin]; [left | by right].
  - intros x [->|Hx]%elem_of_cons; [done | by apply Hall].
Qed.

Lemma elem_of_keys {A} (m : gmap Z A) (k : Z) :
  k ∈ (map_to_list m).*1 ↔ is_Some (m !! k).
Proof.
  rewrite list_elem_of_fmap. split.
  - intros ([k' x] & -> & Hin). apply elem_of_map_to_list in Hin. by exists x.
  - intros [x Hx]. exists (k, x). split; [done|]. by apply elem_of_map_to_list.
Qed.

(** The last part of the fetcher, on the dictionary built by the loop. *)
Lemma latest_papers_spec (cutoff : Z) (results : list arxiv.Result) :
  let kept := survivors cutoff results in
  let papers_by_day := foldl (group_step cutoff) ∅ results in
  (kept = [] → latest_papers papers_by_day = Return []) ∧
  (kept ≠ [] →
   ∃ latest_day,
     (∃ r, r ∈ kept ∧ date (effective r) = latest_day) ∧
     (∀ r, r ∈ kept → date (effective r) ≤ latest_day) ∧
     latest_papers papers_by_day = Return (to_item <$> on_day latest_day kept)).
Proof.
  intros kept papers_by_day.
  assert (∀ d, papers_by_day !! d = bucket (to_item <$> on_day d kept)) as Hlook
    by apply papers_by_day_lookup.
  assert (∀ r, r ∈ kept → is_Some (papers_by_day !! date (effective r))) as Hkey.
  { intros r Hr. rewrite Hlook. apply bucket_is_Some.
    intros Hnil%fmap_nil_inv.
    exact (filter_nil_not_elem_of _ _ r Hnil eq_refl Hr). }
  unfold latest_papers. split.
  - intros Hnone. rewrite decide_True; [done|].
    apply map_empty. intros d. by rewrite Hlook, Hnone.
  - intros Hsome. destruct kept as [|r0 kept'] eqn:Hkept; [done|].
    rewrite decide_False.
    2:{ intros Hempty. destruct (Hkey r0) as [x Hx]; [left|].
        by rewrite Hempty, lookup_empty in Hx. }
    destruct (max_day_spec (map_to_list papers_by_day).*1) as (d & -> & Hd & Hmax).
    { intros Hnil. destruct (Hkey r0) as [x Hx]; [left|].
      assert (date (effective r0) ∈ (map_to_list papers_by_day).*1) as Hin
        by (apply elem_of_keys; eauto).
      rewrite Hnil in Hin. by apply elem_of_nil in Hin. }
    simpl. exists d. split; [|split].
    + apply elem_of_keys in Hd. rewrite Hlook in Hd.
      apply bucket_is_Some in Hd.
      destruct (on_day d (r0 :: kept')) as [|r l] eqn:Hday; [done|].
      assert (r ∈ on_day d (r0 :: kept')) as Hin by (rewrite Hday; left).
      apply list_elem_of_filter in Hin as [? ?]. by exists r.
    + intros r Hr. apply Hmax, elem_of_keys, Hkey, Hr.
    + by rewrite Hlook, default_bucket.
Qed.

Lemma cutoff_value (now lookback_hours delta cutoff : Z) :
  timedelta_hours lookback_hours = Return delta →
  datetime_sub now delta = Return cutoff →
  cutoff = now - lookback_hours * microseconds_per_hour.
Proof.
  unfold timedelta_hours, datetime_sub.
  destruct (_ && _); [|done]. intros [= <-].
  destruct (_ && _); [|done]. by intros [= <-].
Qed.

(** C4. When the listing ends normally or with the empty-page signal, the
    fetcher returns the empty list if no result survives the recency filter;
    otherwise it returns the items of exactly those survivors whose
    effective date is the greatest date among the survivors, in the order of
    delivery. *)
Theorem fetch_latest_day `{Collaborators} (category : str)
    (lookback_hours delta cutoff : Z) :
  timedelta_hours lookback_hours = Return delta →
  datetime_sub utc_now delta = Return cutoff →
  let feed := arxiv_results (u "cat:" ++ category) in
  arxiv.ending feed = Return () ∨
    arxiv.ending feed = Raise UnexpectedEmptyPageError →
  let kept := survivors cutoff (arxiv.delivered feed) in
  (kept = [] → fetch_recent_arxiv category lookback_hours = Return []) ∧
  (kept ≠ [] →
   ∃ latest_day,
     (∃ r, r ∈ kept ∧ date (effective r) = latest_day) ∧
     (∀ r, r ∈ kept → date (effective r) ≤ latest_day) ∧
     fetch_recent_arxiv category lookback_hours
       = Return (to_item <$> on_day latest_day kept)).
Proof.
  intros Hdelta Hcut feed Hend kept.
  unfold fetch_recent_arxiv. rewrite Hdelta; simpl. rewrite Hcut; simpl.
  fold feed.
  replace (try_except (arxiv.ending feed) _ ≫= _)
    with (latest_papers (foldl (group_step cutoff) ∅ (arxiv.delivered feed)))
    by (by destruct Hend as [-> | ->]).
  apply latest_papers_spec.
Qed.

Lemma fetch_latest_day_witness :
  (∃ latest_day,
     (∃ r, r ∈ survivors (sample_now - 168 * microseconds_per_hour) sample_results ∧
           date (effective r) = latest_day) ∧
     (∀ r, r ∈ survivors (sample_now - 168 * microseconds_per_hour) sample_results →
           date (effective r) ≤ latest_day) ∧
     @fetch_recent_arxiv
        (listing_collaborators sample_now sample_results
           (Raise UnexpectedEmptyPageError)) (u "cs.CR") 168
     = Return (to_item <$>
                 on_day latest_day
                   (survivors (sample_now - 168 * microseconds_per_hour)
                      sample_results))) ∧
  @fetch_recent_arxiv
     (listing_collaborators sample_now sample_results (Return ())) (u "cs.CR") (-1)
  = Return [].
Proof.
  split.
  - refine (proj2 (@fetch_latest_day
              (listing_collaborators sample_now sample_results
                 (Raise UnexpectedEmptyPageError))
              (u "cs.CR") 168 _ _ eq_refl eq_refl (or_intror eq_refl)) _).
    vm_compute. discriminate.
  - refine (proj1 (@fetch_latest_day
              (listing_collaborators sample_now sample_results (Return ()))
              (u "cs.CR") (-1) _ _ eq_refl eq_refl (or_introl eq_refl)) _).
    vm_compute. reflexivity.
Defined.



(** ** Digest assembler *)

Example html_body_empty :
  html_body sample_config []
  = nl ++ u "    <html><body>" ++
    nl ++ u "    <h2>arXiv cs.CR 每日摘要</h2>" ++
    nl ++ u "    <p>今日暂无新论文。</p>" ++
    nl ++ u "    <hr/><p style=" ++ dq ++ u "color:#888" ++ dq
       ++ u ">Gemini 自动生成 · 请核对原文。</p></body></html>" ++
    nl ++ u "    ".
Proof. vm_compute. reflexivity. Qed.

(** The escaped text has none of the characters that open or close markup
    or an attribute value. *)
Lemma escape_char_no_markup (x : N) :
  forallb is_plain (escape_char x) = true.
Proof.
  unfold escape_char.
  destruct (N.eqb_spec x 38); [reflexivity|].
  destruct (N.eqb_spec x 60); [reflexivity|].
  destruct (N.eqb_spec x 62); [reflexivity|].
  destruct (N.eqb_spec x 34); [reflexivity|].
  destruct (N.eqb_spec x 39); [reflexivity|].
  unfold is_plain; simpl.
  by rewrite !(proj2 (N.eqb_neq _ _)).
Qed.

Lemma html_escape_no_markup (s : str) :
  forallb is_plain (html_escape s) = true.
Proof.
  unfold html_escape. induction s as [|x s IH]; [done|].
  change (forallb is_plain (escape_char x ++ (s ≫= escape_char)) = true).
  by rewrite forallb_app, escape_char_no_markup, IH.
Qed.

(** C6, on a digest whose title and whose abstract-page link both hold a
    [script] element: the title comes out escaped, the link is embedded as it
    is and its markup reaches the body of the message. *)
Theorem links_embedded_unescaped :
  contains (u "&lt;script&gt;alert(2)&lt;/script&gt;")
           (html_body sample_config [markup_digest]) = true ∧
  contains (u "<script>alert(2)</script>")
           (html_body sample_config [markup_digest]) = false ∧
  contains (u "<a href=" ++ dq ++ abs_url markup_paper ++ dq ++ u ">")
           (html_body sample_config [markup_digest]) = true ∧
  contains (u "<script>alert(1)</script>")
           (html_body sample_config [markup_digest]) = true.
Proof. vm_compute. done. Qed.

(** ** Affiliation extractor *)

Lemma add_once_spec (s : list str) (x y : str) :
  y ∈ add_once s x ↔ y ∈ s ∨ y = x.
Proof.
  unfold add_once. destruct (decide (x ∈ s)) as [Hin|Hout].
  - split; [by left|]. by intros [?| ->].
  - by rewrite elem_of_app, list_elem_of_singleton.
Qed.

Lemma add_once_NoDup (s : list str) (x : str) : NoDup s → NoDup (add_once s x).
Proof.
  intros Hs. unfold add_once. destruct (decide (x ∈ s)) as [Hin|Hout]; [done|].
  apply list.NoDup_app. split; [done|]. split; [|apply NoDup_singleton].
  by intros y Hy ->%list_elem_of_singleton.
Qed.

Lemma foldl_add_once (l acc : list str) :
  (NoDup acc → NoDup (foldl add_once acc l)) ∧
  (∀ y, y ∈ foldl add_once acc l ↔ y ∈ acc ∨ y ∈ l).
Proof.
  revert acc. induction l as [|x l IH]; intros acc; simpl.
  - split; [done|]. intros y. rewrite elem_of_nil. tauto.
  - destruct (IH (add_once acc x)) as [Hnd Hel]. split.
    + intros Hacc. by apply Hnd, add_once_NoDup.
    + intros y. rewrite Hel, add_once_spec, elem_of_cons. tauto.
Qed.

Lemma dict_fromkeys_NoDup (l : list str) : NoDup (dict_fromkeys l).
Proof. apply foldl_add_once, NoDup_nil_2. Qed.

Lemma dict_fromkeys_elem (l : list str) (y : str) : y ∈ dict_fromkeys l ↔ y ∈ l.
Proof.
  unfold dict_fromkeys. rewrite (proj2 (foldl_add_once l [])).
  rewrite elem_of_nil. tauto.
Qed.

Example clean_sample :
  clean (u "1-  MIT   Lab") = u "MIT Lab" ∧
  clean (u "2: Oxford  University") = u "Oxford University" ∧
  match_marker (u "MIT Lab") = None.
Proof. vm_compute. done. Qed.

Example text_lines_sample :
  text_lines affiliation_text
  = [u "A Paper"; u "1 MIT Lab"; u "2: Oxford  University";
     u "2 - Oxford University"; u "Abstract"].
Proof. vm_compute. reflexivity. Qed.

(** The part of C2 that holds whatever the iteration order of the set: no
    string is returned twice, and the strings returned are the cleaned forms
    of the collected lines. *)
Lemma affiliations_deduplicated `{Collaborators} `{SetOrder} pdf_bytes doc page
    text l :
  fitz_open pdf_bytes = Return doc → head doc = Some page →
  fitz.get_text page = Return text →
  extract_affiliations_from_pdf pdf_bytes = Return l →
  NoDup l ∧ ∀ aff, aff ∈ l ↔ ∃ line, line ∈ collect (text_lines text) ∧
                                   aff = clean line.
Proof.
  intros Hopen Hhead Htext.
  unfold extract_affiliations_from_pdf, extract_affiliations_body.
  rewrite Hopen; simpl. destruct doc as [|page' doc]; [done|].
  injection Hhead as ->. simpl. rewrite Htext; simpl. intros [= <-].
  split; [apply dict_fromkeys_NoDup|].
  intros aff. rewrite dict_fromkeys_elem, list_elem_of_fmap.
  split.
  - intros (line & -> & Hline). exists line. split; [|done].
    by apply (elem_of_Permutation_proper line _ _ (set_iter_perm _)).
  - intros (line & Hline & ->). exists line. split; [done|].
    by apply (elem_of_Permutation_proper line _ _ (set_iter_perm _)).
Qed.

(** C2, on a first page with the lines [1 MIT Lab], [2: Oxford  University]
    and [2 - Oxford University]: the two Oxford lines give one entry, but the
    place of the entries follows the iteration order of the set. The cleaned
    lines in the order in which the page has them, without repetition, are
    [MIT Lab] and then [Oxford University]. When the set iterates in
    insertion order the result is in this first-seen order; when it iterates
    the other way round the result is reversed, and so is not the list the
    specification promises. *)
Theorem affiliation_order_follows_set :
  dict_fromkeys (clean <$> collect (text_lines affiliation_text))
    = [u "MIT Lab"; u "Oxford University"] ∧
  @extract_affiliations_from_pdf (with_document affiliation_document)
     insertion_order [] = Return [u "MIT Lab"; u "Oxford University"] ∧
  @extract_affiliations_from_pdf (with_document affiliation_document)
     reversed_order [] = Return [u "Oxford University"; u "MIT Lab"] ∧
  @extract_affiliations_from_pdf (with_document affiliation_document)
     reversed_order []
    ≠ Return (dict_fromkeys (clean <$> collect (text_lines affiliation_text))).
Proof.
  split; [vm_compute; reflexivity|].
  split; [vm_compute; reflexivity|].
  split; [vm_compute; reflexivity|].
  vm_compute. discriminate.
Qed.

(** ** The run loop *)

Example summarize_sample :
  @summarize_from_pdf answering_collaborators insertion_order sample_paper
  = Return (u "A summary.").
Proof. vm_compute. reflexivity. Qed.

(** C1, on the code: the call that builds the digest passes the paper, the
    translated summary and the two image fields but not the English summary,
    which [summarize_from_pdf] keeps to itself. [PaperDigest] declares
    [summary_en] without a default, so the construction is refused: for
    every paper the body of the loop raises, and a run with at least one
    paper never produces a digest. *)
Theorem digest_lacks_summary_en `{Collaborators} `{SetOrder} :
  (∀ p zh img, kw_summary_en (digest_kwargs p zh img) = None ∧
               PaperDigest_new (digest_kwargs p zh img)
               = Raise (ValidationError "summary_en")) ∧
  (∀ digests p, ∃ e, process_paper digests p = Raise e) ∧
  (∀ p papers, ∃ e, for_each process_paper (p :: papers) [] = Raise e).
Proof.
  assert (∀ digests p, ∃ e, process_paper digests p = Raise e) as Hraise.
  { intros digests p. unfold process_paper.
    destruct (summarize_from_pdf p) as [zh|e]; simpl; [|by eexists].
    destruct (fetch_figure p) as [img|e]; simpl; [|by eexists].
    by eexists. }
  split; [done|]. split; [done|].
  intros p papers. simpl. destruct (Hraise [] p) as [e ->]. by exists e.
Qed.

Example run_loop_sample :
  @run_loop answering_collaborators insertion_order sample_config
  = Raise (ValidationError "summary_en").
Proof. vm_compute. reflexivity. Qed.

Lemma PaperDigest_new_fields (kw : PaperDigest_kwargs) (d : PaperDigest) :
  PaperDigest_new kw = Return d →
  kw_main_img_bytes kw = Some (main_img_bytes d) ∧
  kw_main_img_cid kw = Some (main_img_cid d).
Proof.
  unfold PaperDigest_new, required.
  destruct (kw_paper kw), (kw_zh_summary kw), (kw_summary_en kw),
    (kw_main_img_bytes kw), (kw_main_img_cid kw); simpl; try done.
  by intros [= <-].
Qed.

(** In the call that builds the digest, the content identifier is set
    exactly when the image is neither absent nor empty, and the image field
    receives that same image. The constructor stores both fields as they are
    passed, so a digest built from these two arguments would have a content
    identifier if and only if it had non-empty image bytes. *)
Lemma cid_iff_image_bytes (p : PaperItem) (zh : str) (img : option bytes) :
  kw_main_img_bytes (digest_kwargs p zh img) = Some img ∧
  kw_main_img_cid (digest_kwargs p zh img)
    = Some (if truthy img then Some (u "img-" ++ arxiv_id p) else None) ∧
  (truthy img = true ↔ ∃ b, img = Some b ∧ b ≠ []) ∧
  (∀ kw d,
     kw_main_img_bytes kw = kw_main_img_bytes (digest_kwargs p zh img) →
     kw_main_img_cid kw = kw_main_img_cid (digest_kwargs p zh img) →
     PaperDigest_new kw = Return d →
     (main_img_cid d ≠ None ↔ ∃ b, main_img_bytes d = Some b ∧ b ≠ [])).
Proof.
  assert (truthy img = true ↔ ∃ b, img = Some b ∧ b ≠ []) as Htruthy.
  { destruct img as [[|x b]|]; simpl; split; try done.
    - by intros (b & [= <-] & ?).
    - intros _. by eexists.
    - by intros (b & ? & _). }
  split; [done|]. split; [done|]. split; [done|].
  intros kw d Hbytes Hcid [Hb Hc]%PaperDigest_new_fields.
  rewrite Hb in Hbytes. rewrite Hc in Hcid. simpl in Hbytes, Hcid.
  injection Hbytes as ->. injection Hcid as ->.
  rewrite <- Htruthy. by destruct (truthy img).
Qed.

Lemma cid_iff_image_bytes_witness :
  main_img_cid
    {| paper := sample_paper; zh_summary := u "摘要"; summary_en := u "A summary.";
       main_img_bytes := Some [x89; x50]; main_img_cid := Some (u "img-2401.00001v1") |}
    ≠ None
  ↔ ∃ b, Some [x89; x50] = Some b ∧ b ≠ [].
Proof.
  exact (proj2 (proj2 (proj2
           (cid_iff_image_bytes sample_paper (u "摘要") (Some [x89; x50]))))
           {| kw_paper := Some sample_paper;
              kw_zh_summary := Some (u "摘要");
              kw_summary_en := Some (u "A summary.");
              kw_main_img_bytes := Some (Some [x89; x50]);
              kw_main_img_cid := Some (Some (u "img-2401.00001v1")) |}
           _ eq_refl eq_refl eq_refl).
Defined.

(** * Further properties *)

(** ** Stripping, splitting and joining *)

Lemma lstrip_split (s : str) :
  ∃ w, s = w ++ lstrip s ∧ blank w ∧ starts_clean (lstrip s).
Proof.
  induction s as [|c s (w & Hs & Hw & Hc)]; simpl.
  - exists []. split; [done|]. split; [constructor|done].
  - destruct (isspace c) eqn:Hsp.
    + exists (c :: w). split; [by rewrite Hs at 1|]. split; [by constructor|done].
    + exists []. split; [done|]. split; [constructor|done].
Qed.

Lemma lstrip_clean (s : str) : starts_clean s → lstrip s = s.
Proof. destruct s as [|c s]; simpl; [done|]. by intros ->. Qed.

Lemma rstrip_split (s : str) :
  ∃ w, s = rstrip s ++ w ∧ blank w ∧ starts_clean (reverse (rstrip s)).
Proof.
  unfold rstrip. destruct (lstrip_split (reverse s)) as (w & Hs & Hw & Hc).
  exists (reverse w). split; [|split].
  - rewrite <- reverse_app, <- Hs. by rewrite reverse_involutive.
  - unfold blank. by rewrite Forall_reverse.
  - by rewrite reverse_involutive.
Qed.

Lemma rstrip_clean (s : str) : starts_clean (reverse s) → rstrip s = s.
Proof.
  intros Hc. unfold rstrip. rewrite lstrip_clean by done.
  apply reverse_involutive.
Qed.

Lemma rstrip_starts_clean (s : str) : starts_clean s → starts_clean (rstrip s).
Proof.
  intros Hc. destruct (rstrip_split s) as (w & Hs & _).
  destruct (rstrip s) as [|c r]; [done|].
  rewrite Hs in Hc. exact Hc.
Qed.

(** [s.strip()] cuts a run of white space off each end and nothing else. *)
Lemma strip_split (s : str) :
  ∃ w1 w2, s = w1 ++ strip s ++ w2 ∧ blank w1 ∧ blank w2 ∧ trimmed (strip s).
Proof.
  unfold strip.
  destruct (lstrip_split s) as (w1 & Hs & Hw1 & Hc).
  destruct (rstrip_split (lstrip s)) as (w2 & Hl & Hw2 & Hr).
  exists w1, w2. split; [by rewrite <- Hl|]. split; [done|]. split; [done|].
  split; [by apply rstrip_starts_clean|done].
Qed.

Lemma strip_trimmed (s : str) : trimmed s → strip s = s.
Proof.
  intros [Hl Hr]. unfold strip. rewrite lstrip_clean by done.
  by apply rstrip_clean.
Qed.

Lemma strip_elem_of (s : str) (c : N) : c ∈ strip s → c ∈ s.
Proof.
  destruct (strip_split s) as (w1 & w2 & Hs & _). intros Hc.
  rewrite Hs, !elem_of_app. auto.
Qed.

Lemma split_no_sep (sep : N) (s p : str) : p ∈ split sep s → sep ∉ p.
Proof.
  revert p. induction s as [|c s IH]; intros p; simpl.
  - intros ->%list_elem_of_singleton. apply not_elem_of_nil.
  - destruct (N.eqb_spec c sep) as [->|Hne].
    + intros [->|Hp]%elem_of_cons; [apply not_elem_of_nil | by apply IH].
    + destruct (split sep s) as [|cur rest] eqn:Hsplit.
      * intros ->%list_elem_of_singleton [?|[]%elem_of_nil]%elem_of_cons.
        congruence.
      * intros [->|Hp]%elem_of_cons.
        -- intros [?|Hin]%elem_of_cons; [congruence|].
           by apply (IH cur); [left|].
        -- apply IH. by right.
Qed.

Lemma split_nonempty (sep : N) (s : str) : split sep s ≠ [].
Proof.
  destruct s as [|c s]; simpl; [done|].
  destruct (c =? sep)%N; [done|]. by destruct (split sep s).
Qed.

Lemma split_join (sep : N) (s : str) : join [sep] (split sep s) = s.
Proof.
  induction s as [|c s IH]; simpl; [done|].
  pose proof (split_nonempty sep s) as Hne.
  destruct (split sep s) as [|cur rest]; [done|].
  destruct (N.eqb_spec c sep) as [->|_].
  - by rewrite <- IH.
  - rewrite <- IH. by destruct rest.
Qed.

(** The shape shared by the lines of a page and the list of recipients:
    the pieces between separators, stripped, the empty ones left out. *)
Lemma stripped_pieces (sep : N) (s p : str) :
  p ∈ strip <$> filter (λ a, strip a ≠ []) (split sep s) →
  p ≠ [] ∧ trimmed p ∧ sep ∉ p.
Proof.
  intros (a & -> & [Hne Ha]%list_elem_of_filter)%list_elem_of_fmap.
  split; [done|]. split.
  - by destruct (strip_split a) as (_ & _ & _ & _ & _ & ?).
  - intros Hin%strip_elem_of. by apply (split_no_sep sep s a).
Qed.

(** X1. Every line the affiliation extractor works on is non-empty, has no
    white space at either end and holds no line break. *)
Theorem text_lines_entries (text line : str) :
  line ∈ text_lines text →
  line ≠ [] ∧ trimmed line ∧ (10%N ∉ line) ∧ strip line = line.
Proof.
  intros (Hne & Htrim & Hnl)%stripped_pieces.
  repeat (split; [done|]). by apply strip_trimmed.
Qed.

Lemma text_lines_entries_witness :
  u "2 - Oxford University" ≠ [] ∧ trimmed (u "2 - Oxford University") ∧
  (10%N ∉ u "2 - Oxford University") ∧
  strip (u "2 - Oxford University") = u "2 - Oxford University".
Proof.
  apply (text_lines_entries affiliation_text).
  apply list_elem_of_lookup. exists 3%nat. vm_compute. reflexivity.
Defined.

(** X2. Every recipient read from [MAIL_TO] is non-empty, has no white
    space at either end and holds no comma; entries that are empty or blank
    are dropped. *)
Theorem mail_to_list_entries (MAIL_TO addr : str) :
  addr ∈ mail_to_list MAIL_TO →
  addr ≠ [] ∧ trimmed addr ∧ 44%N ∉ addr.
Proof. apply stripped_pieces. Qed.

Lemma mail_to_list_entries_witness :
  mail_to_list sample_mail_to = [u "reader@example.org"; u "second@example.org"] ∧
  u "second@example.org" ≠ [] ∧ trimmed (u "second@example.org") ∧
  44%N ∉ u "second@example.org".
Proof.
  split; [vm_compute; reflexivity|].
  apply (mail_to_list_entries sample_mail_to).
  apply list_elem_of_lookup. exists 1%nat. vm_compute. reflexivity.
Defined.

Lemma split_whole (sep : N) (a : str) : sep ∉ a → split sep a = [a].
Proof.
  induction a as [|c a IH]; simpl; [done|].
  intros Hin. destruct (N.eqb_spec c sep) as [->|_].
  - destruct Hin. left.
  - rewrite IH; [done|]. intros ?. apply Hin. by right.
Qed.

Lemma split_app_sep (sep : N) (a rest : str) :
  sep ∉ a → split sep (a ++ sep :: rest) = a :: split sep rest.
Proof.
  induction a as [|c a IH]; simpl; intros Hin.
  - by rewrite N.eqb_refl.
  - destruct (N.eqb_spec c sep) as [->|_].
    + destruct Hin. left.
    + rewrite IH; [done|]. intros ?. apply Hin. by right.
Qed.

Lemma split_comma_join (a : str) (l : list str) :
  Forall (λ b, 44%N ∉ b) (a :: l) →
  split 44%N (join [44; 32]%N (a :: l)) = a :: ((λ b, 32%N :: b) <$> l).
Proof.
  revert a. induction l as [|b l IH]; intros a Hall.
  - simpl. apply split_whole. by inversion Hall.
  - inversion Hall as [|? ? Ha Hrest]; subst.
    change (join [44; 32]%N (a :: b :: l))
      with (a ++ 44%N :: 32%N :: join [44; 32]%N (b :: l)).
    rewrite split_app_sep by done.
    change (split 44%N (32%N :: join [44; 32]%N (b :: l)))
      with (match split 44%N (join [44; 32]%N (b :: l)) with
            | cur :: rest => (32%N :: cur) :: rest
            | [] => [[32%N]]
            end).
    by rewrite IH.
Qed.

(** X3. The list of recipients survives the round trip through the [To]
    header: joining addresses with a comma and a space, as [build_email]
    does, and reading the result as [MAIL_TO] gives the same addresses, as
    long as each one is non-empty, trimmed and without a comma. *)
Theorem mail_to_list_join (addrs : list str) :
  Forall (λ a, a ≠ [] ∧ trimmed a ∧ 44%N ∉ a) addrs →
  mail_to_list (join (u ", ") addrs) = addrs.
Proof.
  intros Hall. change (u ", ") with [44; 32]%N. unfold mail_to_list.
  destruct addrs as [|a l]; [done|].
  assert (Forall (λ b, 44%N ∉ b) (a :: l)) as Hcomma.
  { apply Forall_forall. intros b Hb.
    by destruct (proj1 (Forall_forall _ _) Hall b Hb) as (_ & _ & ?). }
  rewrite split_comma_join by done.
  inversion Hall as [|? ? (Hne & Htrim & _) Hrest]; subst.
  rewrite filter_cons_True by (by rewrite strip_trimmed).
  rewrite fmap_cons, strip_trimmed by done. f_equal.
  clear Hall Hcomma Hne Htrim.
  induction Hrest as [|b l (Hne & Htrim & _) _ IH]; [done|].
  assert (strip (32%N :: b) = b) as Hb.
  { unfold strip. simpl. rewrite lstrip_clean by apply Htrim.
    apply rstrip_clean, Htrim. }
  rewrite fmap_cons, filter_cons_True by (by rewrite Hb).
  by rewrite fmap_cons, Hb, IH.
Qed.

Lemma mail_to_list_join_witness :
  mail_to_list (join (u ", ") [u "reader@example.org"; u "second@example.org"])
  = [u "reader@example.org"; u "second@example.org"].
Proof.
  apply mail_to_list_join.
  repeat constructor; try discriminate; try reflexivity;
    vm_compute; intros Hin; repeat (apply elem_of_cons in Hin as [Hin|Hin]; [discriminate|]);
    by apply elem_of_nil in Hin.
Defined.

(** ** Cleaning and collecting affiliation lines *)

Lemma collapse_single_spaced (b : bool) (s : str) :
  single_spaced_from b (collapse_from b s).
Proof.
  revert b. induction s as [|c s IH]; intros b; simpl; [done|].
  destruct (isspace c) eqn:Hc.
  - destruct b; [apply IH|]. simpl. split; [done|]. split; [done|apply IH].
  - simpl. rewrite Hc. apply IH.
Qed.

Lemma collapse_snoc (b : bool) (s : str) (c : N) :
  isspace c = false → collapse_from b (s ++ [c]) = collapse_from b s ++ [c].
Proof.
  intros Hc. revert b. induction s as [|x s IH]; intros b; simpl.
  - by rewrite Hc.
  - destruct (isspace x), b; by rewrite ?IH.
Qed.

Lemma collapse_trimmed (s : str) : trimmed s → trimmed (collapse_spaces s).
Proof.
  intros [Hhead Hlast]. unfold collapse_spaces. split.
  - destruct s as [|c s]; simpl in *; [done|]. by rewrite Hhead.
  - destruct s as [|c s _] using rev_ind; [done|].
    rewrite reverse_snoc in Hlast. simpl in Hlast.
    rewrite collapse_snoc by done. by rewrite reverse_snoc.
Qed.

Lemma clean_normal (aff : str) :
  trimmed (clean aff) ∧ single_spaced_from false (clean aff).
Proof.
  unfold clean. split.
  - apply collapse_trimmed.
    by destruct (strip_split (strip_marker aff)) as (_ & _ & _ & _ & _ & ?).
  - apply collapse_single_spaced.
Qed.

(** X4. Every affiliation the extractor returns is in normal form: it has
    no white space at either end, and the only white space inside it is
    single space characters between other characters. *)
Theorem affiliations_normalised `{Collaborators} `{SetOrder} pdf_bytes l aff :
  extract_affiliations_from_pdf pdf_bytes = Return l → aff ∈ l →
  trimmed aff ∧ single_spaced_from false aff.
Proof.
  unfold extract_affiliations_from_pdf, extract_affiliations_body.
  destruct (fitz_open pdf_bytes) as [[|page doc]|e]; simpl;
    try (intros [= <-] Hin; by apply elem_of_nil in Hin).
  destruct (fitz.get_text page) as [text|e]; simpl;
    try (intros [= <-] Hin; by apply elem_of_nil in Hin).
  intros [= <-] Hin. apply (proj1 (dict_fromkeys_elem _ _)) in Hin.
  apply list_elem_of_fmap in Hin as (line & -> & _). apply clean_normal.
Qed.

Lemma affiliations_normalised_witness :
  trimmed (u "Oxford University") ∧
  single_spaced_from false (u "Oxford University").
Proof.
  apply (@affiliations_normalised (with_document affiliation_document)
           reversed_order [] [u "Oxford University"; u "MIT Lab"]).
  - vm_compute. reflexivity.
  - apply list_elem_of_lookup. exists 0%nat. vm_compute. reflexivity.
Defined.

Lemma foldl_add_when (cond : str → bool) (lines acc : list str) :
  foldl (λ affiliations line,
           if cond line then add_once affiliations line else affiliations)
        acc lines
  = foldl add_once acc (filter (λ line, cond line = true) lines).
Proof.
  revert acc. induction lines as [|line lines IH]; intros acc; simpl; [done|].
  rewrite filter_cons. destruct (cond line) eqn:Hc.
  - rewrite decide_True by done. simpl. apply IH.
  - rewrite decide_False by done. apply IH.
Qed.

Lemma collected_when (cond : str → bool) (lines : list str) (line : str) :
  line ∈ foldl (λ affiliations line,
                  if cond line then add_once affiliations line else affiliations)
               [] lines
  ↔ line ∈ lines ∧ cond line = true.
Proof.
  rewrite foldl_add_when, (proj2 (foldl_add_once _ [])), list_elem_of_filter.
  rewrite elem_of_nil. tauto.
Qed.

(** X5. The two passes of the affiliation collector. Whatever is collected
    is a line of the page, and no line is collected twice. If some line
    starts with a numeric marker and names an institution (university,
    institute, college, lab, centre, center), exactly the lines of that kind
    are collected and lines without a marker are ignored. Only when there is
    no such line are the lines that hold a fall-back keyword (university,
    institute, college, academy, lab) collected, with or without marker. *)
Theorem collect_two_passes (lines : list str) :
  let numbered line :=
    bool_decide (is_Some (match_marker line))
    && has_keyword keywords_numbered line in
  NoDup (collect lines) ∧
  ((∃ line, line ∈ lines ∧ numbered line = true) →
   ∀ line, line ∈ collect lines ↔ line ∈ lines ∧ numbered line = true) ∧
  ((∀ line, line ∈ lines → numbered line = false) →
   ∀ line, line ∈ collect lines
           ↔ line ∈ lines ∧ has_keyword keywords_fallback line = true).
Proof.
  intros numbered.
  assert (∀ line, line ∈ collect_numbered lines
                  ↔ line ∈ lines ∧ numbered line = true) as Hfirst
    by (intros line; apply collected_when).
  assert (∀ line, line ∈ collect_fallback lines
                  ↔ line ∈ lines ∧ has_keyword keywords_fallback line = true)
    as Hsecond by (intros line; apply collected_when).
  split; [|split].
  - unfold collect. destruct (collect_numbered lines) eqn:Hn.
    + unfold collect_fallback. rewrite foldl_add_when.
      apply foldl_add_once, NoDup_nil_2.
    + rewrite <- Hn. unfold collect_numbered. rewrite foldl_add_when.
      apply foldl_add_once, NoDup_nil_2.
  - intros (line0 & Hin0 & Hnum0) line. unfold collect.
    destruct (collect_numbered lines); [|apply Hfirst].
    assert (line0 ∈ @nil str) as Habs by (by apply Hfirst).
    by apply elem_of_nil in Habs.
  - intros Hnone line. unfold collect.
    destruct (collect_numbered lines) as [|x rest]; [apply Hsecond|].
    assert (x ∈ x :: rest) as [Hx Hnum]%Hfirst by left.
    rewrite (Hnone x Hx) in Hnum. done.
Qed.

Lemma collect_two_passes_witness :
  u "1 MIT Lab" ∈ collect (text_lines affiliation_text) ∧
  (u "Abstract" ∈ collect [u "Abstract"; u "Some Academy"]
   ↔ u "Abstract" ∈ [u "Abstract"; u "Some Academy"] ∧
     has_keyword keywords_fallback (u "Abstract") = true).
Proof.
  split.
  - apply (proj1 (proj2 (collect_two_passes (text_lines affiliation_text)))).
    + exists (u "1 MIT Lab"). split; [|vm_compute; reflexivity].
      apply list_elem_of_lookup. exists 1%nat. vm_compute. reflexivity.
    + split; [|vm_compute; reflexivity].
      apply list_elem_of_lookup. exists 1%nat. vm_compute. reflexivity.
  - apply (proj2 (proj2 (collect_two_passes [u "Abstract"; u "Some Academy"]))).
    intros line Hin.
    apply elem_of_cons in Hin as [->|Hin]; [vm_compute; reflexivity|].
    apply list_elem_of_singleton in Hin as ->. vm_compute. reflexivity.
Defined.

(** ** More on the figure extractor *)

Lemma decoded_page_no_failure `{Collaborators} imgs pixs e :
  decoded_page imgs = Return pixs → Raise e ∉ imgs.
Proof.
  revert pixs. induction imgs as [|img imgs IH]; intros pixs; simpl.
  - intros _. apply not_elem_of_nil.
  - intros (raw & -> & (p & _ & (rest & Hrest & _)%bind_Return)%bind_Return)%bind_Return.
    intros [?|Hin]%elem_of_cons; [done|]. by apply (IH rest).
Qed.

Lemma decoded_images_no_failure `{Collaborators} doc pixs page imgs e :
  decoded_images doc = Return pixs → page ∈ doc →
  fitz.get_images page = Return imgs → Raise e ∉ imgs.
Proof.
  revert pixs. induction doc as [|page' doc IH]; intros pixs; simpl.
  - intros _ Hin. by apply elem_of_nil in Hin.
  - intros (imgs' & Himgs & (here & Hhere & (rest & Hrest & _)%bind_Return)%bind_Return)%bind_Return.
    intros [->|Hin]%elem_of_cons Hget.
    + rewrite Himgs in Hget. injection Hget as <-.
      by apply (decoded_page_no_failure _ here).
    + by apply (IH rest).
Qed.

(** X6. One embedded image that cannot be decoded makes the extractor
    return no figure, wherever the image sits and whatever the other images
    are: the first exception ends the scan and the candidate kept so far is
    dropped. *)
Theorem undecodable_image_discards_all `{Collaborators} pdf_bytes doc page
    imgs e :
  fitz_open pdf_bytes = Return doc → page ∈ doc →
  fitz.get_images page = Return imgs → Raise e ∈ imgs →
  extract_main_figure pdf_bytes = Return None.
Proof.
  intros Hopen Hpage Himgs Hbad.
  unfold extract_main_figure, extract_main_figure_body.
  rewrite Hopen; simpl. rewrite scan_pages_decoded.
  destruct (decoded_images doc) as [pixs|e'] eqn:Hdec; [|done].
  by destruct (decoded_images_no_failure doc pixs page imgs e).
Qed.

Lemma undecodable_image_discards_all_witness :
  @extract_main_figure (with_document damaged_document) [] = Return None.
Proof.
  refine (@undecodable_image_discards_all (with_document damaged_document) []
            damaged_document
            {| fitz.get_text := Return [];
               fitz.get_images :=
                 Return [image 1 300 400 0 3; Raise (LibraryError 3)] |}
            [image 1 300 400 0 3; Raise (LibraryError 3)]
            (LibraryError 3) eq_refl _ eq_refl _).
  - left.
  - right. left.
Defined.

Lemma select_rejected (st : scan_state) (pix : fitz.Pixmap) :
  passesb pix = false → select st pix = st.
Proof. unfold select. by intros ->. Qed.

Lemma foldl_select_filter (pixs : list fitz.Pixmap) (st : scan_state) :
  foldl select st pixs
  = foldl select st (filter (λ p, passesb p = true) pixs).
Proof.
  revert st. induction pixs as [|p pixs IH]; intros st; simpl; [done|].
  rewrite filter_cons. destruct (passesb p) eqn:Hp.
  - rewrite decide_True by done. simpl. apply IH.
  - rewrite decide_False by done. rewrite select_rejected by done. apply IH.
Qed.

(** X7. Images that fail the filters have no influence on the figure
    chosen: two documents whose images all decode and whose images passing
    the filters are the same, in the same order, give the same result,
    whatever icons, logos or rules either of them holds besides. *)
Theorem rejected_images_ignored `{Collaborators} pdf1 pdf2 doc1 doc2 pixs1
    pixs2 :
  fitz_open pdf1 = Return doc1 → decoded_images doc1 = Return pixs1 →
  fitz_open pdf2 = Return doc2 → decoded_images doc2 = Return pixs2 →
  filter (λ p, passesb p = true) pixs1 = filter (λ p, passesb p = true) pixs2 →
  extract_main_figure pdf1 = extract_main_figure pdf2.
Proof.
  intros Ho1 Hd1 Ho2 Hd2 Hsame.
  rewrite (extract_main_figure_decoded _ _ _ Ho1 Hd1).
  rewrite (extract_main_figure_decoded _ _ _ Ho2 Hd2).
  by rewrite (foldl_select_filter pixs1), (foldl_select_filter pixs2), Hsame.
Qed.

Lemma rejected_images_ignored_witness :
  @extract_main_figure (with_documents sample_document figures_document) []
  = @extract_main_figure (with_documents sample_document figures_document) [x00].
Proof.
  refine (@rejected_images_ignored
            (with_documents sample_document figures_document) [] [x00]
            sample_document figures_document _ _
            eq_refl eq_refl eq_refl eq_refl _).
  vm_compute. reflexivity.
Defined.

(** ** The items of the listing fetcher *)

Lemma startswith_long (k q x y : str) :
  (length k ≤ length q)%nat → startswith k (q ++ x) = startswith k (q ++ y).
Proof.
  revert q. induction k as [|a k IH]; intros q Hlen; [by destruct q|].
  destruct q as [|b q]; simpl in *; [lia|].
  rewrite (IH q) by lia. done.
Qed.

Lemma https_no_http (r : str) :
  contains http_scheme r = false → contains http_scheme (https_scheme ++ r) = false.
Proof. intros Hr. simpl. by destruct r. Qed.

Lemma startswith_across_https (p r : str) :
  (length p < 7)%nat → startswith http_scheme (p ++ https_scheme ++ r) = false.
Proof.
  intros Hlen.
  do 7 (destruct p as [|? p];
        [simpl; by rewrite ?andb_false_r|]).
  simpl in Hlen. lia.
Qed.

Lemma replace_scheme (s : str) :
  (∀ skip, contains http_scheme (replace_from http_scheme https_scheme s skip) = false) ∧
  (∀ p, (length p < 7)%nat →
        startswith http_scheme (p ++ replace_from http_scheme https_scheme s 0) = true →
        startswith http_scheme (p ++ s) = true).
Proof.
  induction s as [|c s [IH1 IH2]].
  - split; [by intros []|done].
  - assert (∀ p, (length p < 7)%nat →
        startswith http_scheme
          (p ++ replace_from http_scheme https_scheme (c :: s) 0) = true →
        startswith http_scheme (p ++ c :: s) = true) as H2.
    { intros p Hlen. cbn [replace_from].
      destruct (startswith http_scheme (c :: s)) eqn:Hm.
      - change (https_scheme ++ ?r) with (https_scheme ++ r).
        by rewrite startswith_across_https.
      - destruct (decide (length p < 6)%nat) as [Hshort|Hlong].
        + rewrite !(cons_middle c p), !app_assoc. apply IH2.
          rewrite length_app. simpl. lia.
        + rewrite !(cons_middle c p), !app_assoc.
          rewrite (startswith_long _ (p ++ [c]) _ s); [done|].
          rewrite length_app. simpl. lia. }
    split; [|done].
    intros [|k]; [|apply IH1].
    specialize (H2 [] ltac:(simpl; lia)). cbn [replace_from] in *.
    destruct (startswith http_scheme (c :: s)) eqn:Hm.
    + apply https_no_http, IH1.
    + change (contains http_scheme (c :: ?r))
        with (startswith http_scheme (c :: r) || contains http_scheme r).
      rewrite IH1, orb_false_r.
      apply not_true_is_false. intros Hs. apply H2 in Hs.
      simpl app in Hs. congruence.
Qed.

Lemma fetch_returns `{Collaborators} (category : str) (lookback_hours : Z)
    (items : list PaperItem) :
  fetch_recent_arxiv category lookback_hours = Return items →
  let feed := arxiv_results (u "cat:" ++ category) in
  let cutoff := utc_now - lookback_hours * microseconds_per_hour in
  timedelta_hours lookback_hours = Return (lookback_hours * microseconds_per_hour) ∧
  datetime_sub utc_now (lookback_hours * microseconds_per_hour) = Return cutoff ∧
  (arxiv.ending feed = Return () ∨
   arxiv.ending feed = Raise UnexpectedEmptyPageError) ∧
  latest_papers (foldl (group_step cutoff) ∅ (arxiv.delivered feed)) = Return items.
Proof.
  unfold fetch_recent_arxiv.
  intros (delta & Hdelta & (cutoff & Hcut & (? & Hend & Hlatest)%bind_Return)%bind_Return)%bind_Return.
  pose proof (cutoff_value _ _ _ _ Hdelta Hcut) as ->.
  assert (delta = lookback_hours * microseconds_per_hour) as ->.
  { unfold timedelta_hours in Hdelta. destruct (_ && _); [|done].
    by injection Hdelta. }
  split; [done|]. split; [done|]. split; [|done].
  destruct (arxiv.ending _) as [[]|[]]; simpl in Hend; try done; auto.
Qed.

Lemma fetch_items `{Collaborators} (category : str) (lookback_hours : Z)
    (items : list PaperItem) (item : PaperItem) :
  fetch_recent_arxiv category lookback_hours = Return items → item ∈ items →
  ∃ r, r ∈ arxiv.delivered (arxiv_results (u "cat:" ++ category)) ∧
       utc_now - lookback_hours * microseconds_per_hour ≤ effective r ∧
       item = to_item r.
Proof.
  intros (_ & _ & _ & Hlatest)%fetch_returns Hin.
  pose proof (latest_papers_spec
                (utc_now - lookback_hours * microseconds_per_hour)
                (arxiv.delivered (arxiv_results (u "cat:" ++ category))))
    as [Hnone Hsome]. cbv zeta in Hnone, Hsome.
  destruct (survivors _ _) as [|r0 kept] eqn:Hkept.
  - rewrite Hnone in Hlatest by done. injection Hlatest as <-.
    by apply elem_of_nil in Hin.
  - destruct Hsome as (d & _ & _ & Heq); [done|].
    rewrite Heq in Hlatest. injection Hlatest as <-.
    apply list_elem_of_fmap in Hin as (r & -> & Hr).
    apply list_elem_of_filter in Hr as [_ Hr]. rewrite <- Hkept in Hr.
    apply list_elem_of_filter in Hr as [Hnew Hr]. by exists r.
Qed.




(** X8. Every item the listing fetcher returns is normalised: its title and
    its abstract have no white space at either end, and its PDF link holds
    no [http://] any more, every occurrence having become [https://]. *)
Theorem fetched_items_normalised `{Collaborators} (category : str)
    (lookback_hours : Z) (items : list PaperItem) (item : PaperItem) :
  fetch_recent_arxiv category lookback_hours = Return items → item ∈ items →
  trimmed (title item) ∧ trimmed (summary item) ∧
  contains (u "http://") (pdf_url item) = false.
Proof.
  intros Hfetch Hin.
  destruct (fetch_items _ _ _ _ Hfetch Hin) as (r & _ & _ & ->). simpl.
  split; [by destruct (strip_split (arxiv.title r)) as (_ & _ & _ & _ & _ & ?)|].
  split; [by destruct (strip_split (arxiv.summary r)) as (_ & _ & _ & _ & _ & ?)|].
  change (u "http://") with http_scheme. change (u "https://") with https_scheme.
  apply replace_scheme.
Qed.

Lemma fetched_items_normalised_witness :
  trimmed (u "A title") ∧ trimmed (u "An abstract.") ∧
  contains (u "http://") (u "https://arxiv.org/pdf/2401.00009v1") = false.
Proof.
  apply (@fetched_items_normalised
           (listing_collaborators sample_now [boundary_result] (Return ()))
           (u "cs.CR") 168 [to_item boundary_result] (to_item boundary_result)).
  - vm_compute. reflexivity.
  - left.
Defined.

(** X9. Failures of the listing fetcher. A look-back window of
    24,000,000,000 hours or more, or one that reaches before the year 1,
    raises [OverflowError] before any result is read. An exception of the
    listing service other than the empty-page signal propagates, and the
    results delivered before it are lost. *)
Theorem fetch_failures `{Collaborators} (category : str) (lookback_hours : Z) :
  (24000000000 ≤ lookback_hours →
   fetch_recent_arxiv category lookback_hours = Raise OverflowError) ∧
  (utc_now - lookback_hours * microseconds_per_hour < datetime_min →
   fetch_recent_arxiv category lookback_hours = Raise OverflowError) ∧
  (∀ cutoff e,
     datetime_sub utc_now (lookback_hours * microseconds_per_hour) = Return cutoff →
     timedelta_hours lookback_hours = Return (lookback_hours * microseconds_per_hour) →
     arxiv.ending (arxiv_results (u "cat:" ++ category)) = Raise e →
     e ≠ UnexpectedEmptyPageError →
     fetch_recent_arxiv category lookback_hours = Raise e).
Proof.
  split; [|split].
  - intros Hbig. unfold fetch_recent_arxiv, timedelta_hours.
    rewrite (proj2 (Z.leb_gt (lookback_hours `div` 24) 999999999)).
    + by rewrite andb_false_r.
    + apply Z.lt_le_trans with (24000000000 `div` 24); [done|].
      by apply Z.div_le_mono.
  - intros Hlow. unfold fetch_recent_arxiv, timedelta_hours.
    destruct (_ && _); [|done]. simpl. unfold datetime_sub.
    by rewrite (proj2 (Z.leb_gt _ _) Hlow).
  - intros cutoff e Hcut Hdelta Hend Hne. unfold fetch_recent_arxiv.
    rewrite Hend, Hdelta; simpl. rewrite Hcut; simpl.
    by destruct e.
Qed.

Lemma fetch_failures_witness :
  @fetch_recent_arxiv (listing_collaborators sample_now sample_results (Return ()))
     (u "cs.CR") 24000000000 = Raise OverflowError ∧
  @fetch_recent_arxiv (listing_collaborators sample_now sample_results (Return ()))
     (u "cs.CR") 20000000 = Raise OverflowError ∧
  @fetch_recent_arxiv
     (listing_collaborators sample_now sample_results (Raise (LibraryError 4)))
     (u "cs.CR") 168 = Raise (LibraryError 4).
Proof.
  split; [|split].
  - apply (proj1 (@fetch_failures
             (listing_collaborators sample_now sample_results (Return ()))
             (u "cs.CR") 24000000000)). lia.
  - apply (proj1 (proj2 (@fetch_failures
             (listing_collaborators sample_now sample_results (Return ()))
             (u "cs.CR") 20000000))). vm_compute. reflexivity.
  - apply (proj2 (proj2 (@fetch_failures
             (listing_collaborators sample_now sample_results
                (Raise (LibraryError 4)))
             (u "cs.CR") 168)) (sample_now - 168 * microseconds_per_hour)
             (LibraryError 4) eq_refl eq_refl eq_refl). discriminate.
Defined.

Lemma survivors_idemp (cutoff : Z) (results : list arxiv.Result) :
  survivors cutoff (survivors cutoff results) = survivors cutoff results.
Proof.
  unfold survivors. induction results as [|r rs IH]; [done|].
  rewrite (filter_cons _ r rs). destruct (decide (cutoff ≤ effective r)); [|done].
  rewrite filter_cons_True by done. by rewrite IH.
Qed.

Lemma papers_by_day_survivors (cutoff : Z) (results : list arxiv.Result) :
  foldl (group_step cutoff) ∅ results
  = foldl (group_step cutoff) ∅ (survivors cutoff results).
Proof.
  apply map_eq. intros d.
  by rewrite !papers_by_day_lookup, survivors_idemp.
Qed.

(** X10. Results older than the cutoff have no influence on what the
    fetcher returns: a listing and the same listing without its stale
    results, read at the same time with the same window, give the same
    answer. *)
Theorem stale_results_ignored (C1 C2 : Collaborators) (category : str)
    (lookback_hours cutoff : Z) :
  @utc_now C1 = @utc_now C2 →
  @datetime_sub (@utc_now C1) (lookback_hours * microseconds_per_hour)
    = Return cutoff →
  arxiv.delivered (@arxiv_results C2 (u "cat:" ++ category))
    = survivors cutoff (arxiv.delivered (@arxiv_results C1 (u "cat:" ++ category))) →
  arxiv.ending (@arxiv_results C2 (u "cat:" ++ category))
    = arxiv.ending (@arxiv_results C1 (u "cat:" ++ category)) →
  @fetch_recent_arxiv C2 category lookback_hours
  = @fetch_recent_arxiv C1 category lookback_hours.
Proof.
  intros Hnow Hcut Hdel Hend. unfold fetch_recent_arxiv.
  rewrite Hdel, Hend, <- Hnow.
  destruct (timedelta_hours lookback_hours) as [delta|e] eqn:Hdelta; [|done].
  assert (delta = lookback_hours * microseconds_per_hour) as ->.
  { unfold timedelta_hours in Hdelta. destruct (_ && _); [|done].
    by injection Hdelta. }
  simpl. rewrite Hcut. simpl.
  by rewrite <- papers_by_day_survivors.
Qed.

Lemma stale_results_ignored_witness :
  @fetch_recent_arxiv
     (listing_collaborators sample_now
        (survivors (sample_now - 168 * microseconds_per_hour) sample_results)
        (Return ())) (u "cs.CR") 168
  = @fetch_recent_arxiv
      (listing_collaborators sample_now sample_results (Return ()))
      (u "cs.CR") 168.
Proof.
  exact (stale_results_ignored
           (listing_collaborators sample_now sample_results (Return ()))
           (listing_collaborators sample_now
              (survivors (sample_now - 168 * microseconds_per_hour) sample_results)
              (Return ()))
           (u "cs.CR") 168 (sample_now - 168 * microseconds_per_hour)
           eq_refl eq_refl eq_refl eq_refl).
Defined.

(** ** More on the digest assembler *)

Lemma occurrences_app (c : N) (s t : str) :
  occurrences c (s ++ t) = (occurrences c s + occurrences c t)%nat.
Proof. unfold occurrences. by rewrite list.filter_app, length_app. Qed.

Lemma occurrences_plain (c : N) (s : str) :
  forallb is_plain s = true → is_plain c = false → occurrences c s = 0%nat.
Proof.
  intros Hs Hc. unfold occurrences.
  induction s as [|x s IH]; [done|]. simpl in Hs.
  apply andb_true_iff in Hs as [Hx Hs].
  rewrite filter_cons_False; [by apply IH|]. intros ->. congruence.
Qed.

Lemma digits_plain (d : Decimal.uint) :
  forallb is_plain (u (NilEmpty.string_of_uint d)) = true.
Proof.
  induction d as [|d IH|d IH|d IH|d IH|d IH|d IH|d IH|d IH|d IH|d IH];
    [done|..]; exact IH.
Qed.

Lemma str_of_nat_plain (i : nat) : forallb is_plain (str_of_nat i) = true.
Proof. apply digits_plain. Qed.

Lemma html_block_brackets (i : nat) (d : PaperDigest) :
  forallb is_plain (abs_url (paper d)) = true →
  forallb is_plain (pdf_url (paper d)) = true →
  occurrences 60 (html_block i d) = 13%nat ∧
  occurrences 62 (html_block i d) = 13%nat.
Proof.
  intros Habs Hpdf. unfold html_block.
  split; rewrite !occurrences_app;
    rewrite !(occurrences_plain _ _ (html_escape_no_markup _)) by done;
    rewrite (occurrences_plain _ _ (str_of_nat_plain i)) by done;
    rewrite (occurrences_plain _ _ Habs), (occurrences_plain _ _ Hpdf) by done;
    count_literals; reflexivity.
Qed.

Lemma join_nil_cons (p : str) (ps : list str) : join [] (p :: ps) = p ++ join [] ps.
Proof. destruct ps; simpl; [by rewrite app_nil_r|done]. Qed.

Lemma html_blocks_brackets (i : nat) (digests : list PaperDigest) :
  Forall plain_links digests →
  occurrences 60 (join [] (html_blocks i digests)) = (13 * length digests)%nat ∧
  occurrences 62 (join [] (html_blocks i digests)) = (13 * length digests)%nat.
Proof.
  intros Hall. revert i.
  induction Hall as [|d ds [Habs Hpdf] _ IH]; intros i; [done|].
  cbn [html_blocks]. rewrite join_nil_cons, !occurrences_app.
  destruct (html_block_brackets i d Habs Hpdf) as [-> ->].
  destruct (IH (S i)) as [-> ->]. simpl length. lia.
Qed.

Lemma html_blocks_imap (i : nat) (digests : list PaperDigest) :
  html_blocks i digests = imap (λ k d, html_block (i + k) d) digests.
Proof.
  revert i. induction digests as [|d ds IH]; intros i; [done|].
  cbn [html_blocks imap]. rewrite Nat.add_0_r, IH. f_equal.
  apply imap_ext. intros k x _. simpl. f_equal. lia.
Qed.

Lemma html_block_nonempty (i : nat) (d : PaperDigest) (rest : str) :
  ∃ tail, html_block i d ++ rest = 10%N :: tail.
Proof. unfold html_block. by eexists. Qed.

(** X11. The body of the message is the fixed page around either the "no
    new papers" paragraph, exactly when there is no digest, or the blocks of
    the digests in their order, the block of the digest at position [k]
    bearing the number [k + 1]. *)
Theorem html_body_blocks (cfg : Config) (digests : list PaperDigest) :
  html_body cfg digests
  = html_frame cfg
      (match digests with
       | [] => u "<p>今日暂无新论文。</p>"
       | _ => mjoin (imap (λ k d, html_block (S k) d) digests)
       end).
Proof.
  unfold html_body, html_frame.
  destruct digests as [|d ds]; [done|].
  assert (∀ y, str_or (join [] (html_blocks 1 (d :: ds))) y
               = join [] (html_blocks 1 (d :: ds))) as ->.
  { intros y. cbn [html_blocks]. rewrite join_nil_cons.
    by destruct (html_block_nonempty 1 d (join [] (html_blocks 2 ds)))
      as [tail ->]. }
  assert (∀ blocks, join [] blocks = mjoin blocks) as ->.
  { induction blocks as [|b bs IHb]; [done|]. by rewrite join_nil_cons, IHb. }
  by rewrite html_blocks_imap.
Qed.

Lemma html_body_blocks_eq (cfg : Config) (digests : list PaperDigest) :
  html_body cfg digests
  = html_frame cfg
      (match digests with
       | [] => u "<p>今日暂无新论文。</p>"
       | _ => join [] (html_blocks 1 digests)
       end).
Proof.
  unfold html_body, html_frame.
  destruct digests as [|d ds]; [done|].
  cbn [html_blocks]. rewrite join_nil_cons.
  by destruct (html_block_nonempty 1 d (join [] (html_blocks 2 ds)))
    as [tail ->].
Qed.

(** X12. When the category and the links of every digest hold no character
    of markup, the titles, authors and summaries cannot add a tag to the
    body, whatever they contain: the body has nine opening and nine closing
    angle brackets of its own, two more for the "no new papers" paragraph
    when there is no digest, and thirteen more of each for every digest. *)
Theorem html_body_brackets (cfg : Config) (digests : list PaperDigest) :
  forallb is_plain (CATEGORY cfg) = true →
  Forall plain_links digests →
  let expected :=
    (9 + match digests with [] => 2 | _ => 13 * length digests end)%nat in
  occurrences 60 (html_body cfg digests) = expected ∧
  occurrences 62 (html_body cfg digests) = expected.
Proof.
  intros Hcat Hall expected. subst expected.
  rewrite html_body_blocks_eq. unfold html_frame.
  assert (∀ c, is_plain c = false →
            occurrences c
              (match digests with
               | [] => u "<p>今日暂无新论文。</p>"
               | _ => join [] (html_blocks 1 digests)
               end)
            = match digests with
              | [] => occurrences c (u "<p>今日暂无新论文。</p>")
              | _ => occurrences c (join [] (html_blocks 1 digests))
              end) as Hinner by (by destruct digests).
  destruct (html_blocks_brackets 1 digests Hall) as [Hlt Hgt].
  split; rewrite !occurrences_app, Hinner by done;
    rewrite (occurrences_plain _ _ Hcat) by done;
    [rewrite Hlt | rewrite Hgt]; count_literals;
    destruct digests; simpl length; vm_compute occurrences; lia.
Qed.

Lemma html_body_brackets_witness :
  occurrences 60 (html_body sample_config [sample_digest]) = 22%nat ∧
  occurrences 62 (html_body sample_config [sample_digest]) = 22%nat.
Proof.
  refine (html_body_brackets sample_config [sample_digest] _ _).
  - vm_compute. reflexivity.
  - repeat constructor; vm_compute; reflexivity.
Defined.

(** ** The summarizer and the run *)

(** X13. What the summarizer returns is the stripped answer of the model to
    the translation prompt built from the stripped answer to the summary
    prompt; in particular it has no white space at either end. *)
Theorem summary_is_stripped_translation `{Collaborators} `{SetOrder}
    (paper : PaperItem) (zh : str) :
  summarize_from_pdf paper = Return zh →
  trimmed zh ∧
  ∃ aff_text full_text response zh_response,
    generate_content (summary_prompt paper aff_text full_text) = Return response ∧
    generate_content (translation_prompt (strip response)) = Return zh_response ∧
    zh = strip zh_response.
Proof.
  unfold summarize_from_pdf.
  intros (pdf & _ & (affs & _ & (doc & _ & (text & _ &
            (resp & Hresp & (zresp & Hz & [= <-])%bind_Return)%bind_Return
          )%bind_Return)%bind_Return)%bind_Return)%bind_Return.
  split; [by destruct (strip_split zresp) as (_ & _ & _ & _ & _ & ?)|].
  eauto 10.
Qed.

Lemma summary_is_stripped_translation_witness :
  trimmed (u "A summary.") ∧
  ∃ aff_text full_text response zh_response,
    @generate_content answering_collaborators
       (summary_prompt sample_paper aff_text full_text) = Return response ∧
    @generate_content answering_collaborators
       (translation_prompt (strip response)) = Return zh_response ∧
    u "A summary." = strip zh_response.
Proof.
  apply (@summary_is_stripped_translation answering_collaborators
           insertion_order sample_paper).
  vm_compute. reflexivity.
Defined.



Lemma process_paper_raises `{Collaborators} `{SetOrder}
    (digests : list PaperDigest) (p : PaperItem) :
  ∃ e, process_paper digests p = Raise e.
Proof.
  unfold process_paper.
  destruct (summarize_from_pdf p) as [zh|e]; simpl; [|by eexists].
  destruct (fetch_figure p) as [img|e]; simpl; [|by eexists].
  by eexists.
Qed.

(** X15. A run comes to its end only on a day without papers. Whenever
    [run] returns, the fetcher had returned the empty list, and the message
    written to the preview file and then handed to the mail relay is the one
    built from no digest, whose body is the page around the "no new papers"
    paragraph. Conversely an empty listing, a preview file that can be
    written and a relay that accepts the message make the run succeed; if
    the preview file cannot be written the run raises before anything is
    sent. *)
Theorem run_completes_when_empty `{Collaborators} `{SetOrder} (cfg : Config) :
  (∀ msg, run cfg = Return msg →
     fetch_recent_arxiv (CATEGORY cfg) (LOOKBACK_HOURS cfg) = Return [] ∧
     msg = build_email cfg [] ∧
     write_file (u "arxiv_daily.html") (msg_html msg) = Return () ∧
     smtp_send msg = Return () ∧
     msg_html msg = html_frame cfg (u "<p>今日暂无新论文。</p>")) ∧
  (fetch_recent_arxiv (CATEGORY cfg) (LOOKBACK_HOURS cfg) = Return [] →
   write_file (u "arxiv_daily.html") (html_body cfg []) = Return () →
   smtp_send (build_email cfg []) = Return () →
   run cfg = Return (build_email cfg [])) ∧
  (fetch_recent_arxiv (CATEGORY cfg) (LOOKBACK_HOURS cfg) = Return [] →
   ∀ e, write_file (u "arxiv_daily.html") (html_body cfg []) = Raise e →
        run cfg = Raise e).
Proof.
  split; [|split].
  - unfold run, run_loop.
    intros msg (digests & (papers & Hfetch & Hloop)%bind_Return
                & ([] & Hwrite & ([] & Hsend & [= <-])%bind_Return
                  )%bind_Return)%bind_Return.
    destruct papers as [|p papers].
    + injection Hloop as <-. by rewrite Hwrite, Hsend.
    + simpl in Hloop. destruct (process_paper_raises [] p) as [e He].
      by rewrite He in Hloop.
  - intros Hfetch Hwrite Hsend. unfold run, run_loop.
    rewrite Hfetch; simpl.
    change (msg_html (build_email cfg [])) with (html_body cfg []).
    rewrite Hwrite; simpl. by rewrite Hsend.
  - intros Hfetch e Hwrite. unfold run, run_loop.
    rewrite Hfetch; simpl.
    change (msg_html (build_email cfg [])) with (html_body cfg []).
    by rewrite Hwrite.
Qed.

Lemma run_completes_when_empty_witness :
  @run quiet_collaborators insertion_order sample_config
    = Return (@build_email quiet_collaborators sample_config []) ∧
  @run (read_only quiet_collaborators) insertion_order sample_config
    = Raise (LibraryError 7).
Proof.
  split.
  - apply (proj1 (proj2 (@run_completes_when_empty quiet_collaborators
                           insertion_order sample_config))).
    + vm_compute. reflexivity.
    + reflexivity.
    + reflexivity.
  - apply (proj2 (proj2 (@run_completes_when_empty
                           (read_only quiet_collaborators) insertion_order
                           sample_config))).
    + vm_compute. reflexivity.
    + reflexivity.
Defined.

(** The run loop never hands over a digest: the constructor refuses the
    keywords of every call, so the only list the loop can return is the
    empty one, on a day without papers. *)
Lemma run_loop_no_digest `{Collaborators} `{SetOrder} (cfg : Config)
    (digests : list PaperDigest) :
  run_loop cfg = Return digests → digests = [].
Proof.
  unfold run_loop. intros (papers & _ & Hloop)%bind_Return.
  destruct papers as [|p papers]; [by injection Hloop|].
  simpl in Hloop. destruct (process_paper_raises [] p) as [e He].
  by rewrite He in Hloop.
Qed.
